(** * drone-runtime, Kubernetes engine: engine/kube/util.go

    A shallow embedding of the helper functions that translate a pipeline
    step (package [engine]) into Kubernetes objects (packages [v1],
    [metav1], [resource] and [intstr]), and the properties of that
    translation.

    Go strings are byte strings and are modelled by [string]; Go integers
    by [Z], with the conversions the source writes ([int32(...)]) spelled
    out; Go maps by [gmap]; slices by [list]; nillable pointers by
    [option]. Go's [int] is taken to be 64 bits wide, as on the amd64
    and arm64 platforms. *)

From Stdlib Require Import ZArith Lia Ascii String.
From stdpp Require Import base option list strings pretty gmap fin_maps.

Local Open Scope Z_scope.
#[local] Set Warnings "-clear-no-such-hyp".

(** ** The Go standard library functions used by util.go *)

Module Go.

(** The conversion [int32(x)]: the low 32 bits, read as a signed number. *)
Definition int32 (x : Z) : Z := (x + 2 ^ 31) mod 2 ^ 32 - 2 ^ 31.

Definition in_int32 (x : Z) : Prop := - 2 ^ 31 <= x < 2 ^ 31.

(** [fmt.Sprintf("%s-%s", a, b)] *)
Definition Sprintf_dash (a b : string) : string := a +:+ "-" +:+ b.

(** [fmt.Sprintf("%s-%s-%s", a, b, c)] *)
Definition Sprintf_dash3 (a b c : string) : string := a +:+ "-" +:+ b +:+ "-" +:+ c.

(** [fmt.Sprintf("%s/%s", a, b)] *)
Definition Sprintf_slash (a b : string) : string := a +:+ "/" +:+ b.

(** [strings.Replace(s, "_", "-", -1)], the only use of [strings.Replace]
    in the file: every byte [_] becomes [-]. *)
Definition underscore : ascii := Ascii.ascii_of_nat 95.
Definition hyphen : ascii := Ascii.ascii_of_nat 45.
Definition slash : ascii := Ascii.ascii_of_nat 47.

Fixpoint replace_underscores (s : string) : string :=
  match s with
  | EmptyString => EmptyString
  | String c r =>
      String (if Ascii.eqb c underscore then hyphen else c) (replace_underscores r)
  end.

(** [strconv.Itoa]: the decimal digits of a number, after a minus sign
    when it is negative. *)
Definition Itoa (n : Z) : string := pretty n.

(** [strconv.ParseBool]: the accepted spellings; anything else is an
    error ([None]), and the value returned next to the error is [false]. *)
Definition ParseBool (s : string) : option bool :=
  if bool_decide (s ∈ ["1"; "t"; "T"; "TRUE"; "true"; "True"]) then Some true
  else if bool_decide (s ∈ ["0"; "f"; "F"; "FALSE"; "false"; "False"]) then Some false
  else None.

(** [v, _ = strconv.ParseBool(s)] *)
Definition ParseBool_value (s : string) : bool := default false (ParseBool s).

(** *** Slash-separated paths: packages [path] and [path/filepath]
    ([filepath] with the separator [/], as on every platform Kubernetes
    nodes run the engine on). *)

(** The elements between slashes, the last one included even when empty. *)
Fixpoint split_slash (s : string) (cur : string) : list string :=
  match s with
  | EmptyString => [cur]
  | String c r =>
      if Ascii.eqb c slash then cur :: split_slash r ""
      else split_slash r (cur +:+ String c "")
  end.

Fixpoint join_slash (l : list string) : string :=
  match l with
  | [] => ""
  | [x] => x
  | x :: r => x +:+ "/" +:+ join_slash r
  end.

Definition is_rooted (p : string) : bool :=
  match p with
  | String c _ => Ascii.eqb c slash
  | EmptyString => false
  end.

(** One step of [Clean]'s loop on the element [e]; [out] holds the
    elements written so far, innermost first. An empty element and [.]
    are dropped; [..] removes the element before it when that is not
    itself a kept [..], is kept on a path that is not rooted, and is
    dropped at the root. *)
Definition clean_step (rooted : bool) (out : list string) (e : string) : list string :=
  if bool_decide (e = "") then out
  else if bool_decide (e = ".") then out
  else if bool_decide (e = "..") then
    match out with
    | top :: rest =>
        if bool_decide (top = "..") then (if rooted then out else e :: out)
        else rest
    | [] => if rooted then out else [e]
    end
  else e :: out.

(** [path.Clean] (and [filepath.Clean]). *)
Definition Clean (p : string) : string :=
  if bool_decide (p = "") then "."
  else
    let rooted := is_rooted p in
    let out := rev (foldl (clean_step rooted) [] (split_slash p "")) in
    let body := join_slash out in
    if rooted then "/" +:+ body
    else if bool_decide (body = "") then "." else body.

(** [strings.Join(elems, "/")] *)
Definition Join_sep (elems : list string) : string := join_slash elems.

(** [filepath.Join]: the elements from the first one that is not empty,
    joined by the separator and cleaned; the empty string when all are
    empty. *)
Fixpoint filepath_Join (elems : list string) : string :=
  match elems with
  | [] => ""
  | e :: r => if bool_decide (e = "") then filepath_Join r else Clean (Join_sep elems)
  end.

(** Trailing slashes removed (the first loop of [path.Base]). *)
Fixpoint strip_trailing_slashes (s : string) : string :=
  match s with
  | EmptyString => EmptyString
  | String c r =>
      let r' := strip_trailing_slashes r in
      if bool_decide (r' = "") && Ascii.eqb c slash then "" else String c r'
  end.

(** [path.Base] *)
Definition Base (p : string) : string :=
  if bool_decide (p = "") then "."
  else
    let p1 := strip_trailing_slashes p in
    let p2 := default "" (last (split_slash p1 "")) in
    if bool_decide (p2 = "") then "/" else p2.

(** [path.Split]'s first component: everything up to and including the
    last slash. *)
Definition Split_dir (p : string) : string :=
  let elems := split_slash p "" in
  match removelast elems with
  | [] => ""
  | front => join_slash front +:+ "/"
  end.

(** [path.Dir] *)
Definition Dir (p : string) : string := Clean (Split_dir p).

End Go.

(** ** Package engine: the pipeline model util.go reads

    The structures are declared with the fields util.go accesses; a field
    the source tests against [nil] is an [option]. *)

Module engine.

Record Metadata := {
  Metadata_UID : string;
  Metadata_Namespace : string;
  Metadata_Name : string;
  Metadata_Labels : gmap string string;
}.

Record Secret := {
  Secret_Metadata : Metadata;
  Secret_Data : string;
}.

Record File := {
  File_Metadata : Metadata;
  File_Data : string;
}.

Record VolumeEmptyDir := {
  VolumeEmptyDir_Medium : string;
}.

Record VolumeHostPath := {
  VolumeHostPath_Path : string;
}.

Record VolumeSecretItem := {
  VolumeSecretItem_Key : string;
  VolumeSecretItem_Path : string;
  VolumeSecretItem_Mode : option Z;
}.

Record VolumeSecret := {
  VolumeSecret_Name : string;
  VolumeSecret_Items : list VolumeSecretItem;
}.

Record Volume := {
  Volume_Metadata : Metadata;
  Volume_EmptyDir : option VolumeEmptyDir;
  Volume_HostPath : option VolumeHostPath;
  Volume_Secret : option VolumeSecret;
}.

Record SecretVar := {
  SecretVar_Name : string;
  SecretVar_Env : string;
}.

Record FileMount := {
  FileMount_Name : string;
  FileMount_Path : string;
  FileMount_Mode : Z;
}.

Record VolumeMount := {
  VolumeMount_Name : string;
  VolumeMount_Path : string;
}.

Record Port := {
  Port_Port : Z;
  Port_Host : Z;
}.

Record ResourceObject := {
  ResourceObject_CPU : Z;
  ResourceObject_Memory : Z;
}.

Record Resources := {
  Resources_Limits : option ResourceObject;
  Resources_Requests : option ResourceObject;
}.

Inductive PullPolicy := PullDefault | PullAlways | PullIfNotExists | PullNever.

Record DockerAuth := {
  DockerAuth_Address : string;
  DockerAuth_Username : string;
  DockerAuth_Password : string;
}.

Record DockerConfig := {
  DockerConfig_Auths : list DockerAuth;
}.

Record DockerStep := {
  DockerStep_Args : list string;
  DockerStep_Command : list string;
  DockerStep_Image : string;
  DockerStep_Ports : list Port;
  DockerStep_Privileged : bool;
  DockerStep_PullPolicy : PullPolicy;
}.

Record Step := {
  Step_Metadata : Metadata;
  Step_Docker : DockerStep;
  Step_Envs : gmap string string;
  Step_Files : list FileMount;
  Step_Resources : option Resources;
  Step_Secrets : list SecretVar;
  Step_Volumes : list VolumeMount;
  Step_WorkingDir : string;
}.

Record Spec := {
  Spec_Metadata : Metadata;
  Spec_Secrets : list Secret;
  Spec_Files : list File;
  Spec_Volumes : list Volume;
  Spec_Docker : DockerConfig;
}.

(** Modelled from the spec: the lookup helpers [engine.LookupSecret],
    [engine.LookupFile] and [engine.LookupVolume] are not part of util.go.
    The specification describes them as lookups by stable name that give a
    found/not-found result and never an error, the [Name] of the identity
    block being the lookup key: the first registered entity of that name. *)
Definition LookupSecret (spec : Spec) (name : string) : option Secret :=
  list_find (λ s, Metadata_Name (Secret_Metadata s) = name) (Spec_Secrets spec) ≫= λ p, Some p.2.

Definition LookupFile (spec : Spec) (name : string) : option File :=
  list_find (λ f, Metadata_Name (File_Metadata f) = name) (Spec_Files spec) ≫= λ p, Some p.2.

Definition LookupVolume (spec : Spec) (name : string) : option Volume :=
  list_find (λ v, Metadata_Name (Volume_Metadata v) = name) (Spec_Volumes spec) ≫= λ p, Some p.2.

End engine.

(** ** Go's [range] over a map

    The order in which [range] visits the entries of a map is not
    specified; every entry is visited once. A [MapRange] is one such
    order for every map. *)

Record MapRange := {
  range_map : gmap string string → list (string * string);
  range_map_perm : ∀ m, range_map m ≡ₚ map_to_list m;
}.

Definition sorted_range : MapRange :=
  {| range_map := map_to_list; range_map_perm := λ m, reflexivity _ |}.

(** ** The Kubernetes API objects util.go builds *)

Module resource.

Inductive Format := BinarySI | DecimalSI | DecimalExponent.

(** A quantity is [value * 10^scale], displayed in a format. *)
Record Quantity := {
  Quantity_value : Z;
  Quantity_scale : Z;
  Quantity_Format : Format;
}.

(** [resource.NewQuantity] *)
Definition NewQuantity (value : Z) (format : Format) : Quantity :=
  {| Quantity_value := value; Quantity_scale := 0; Quantity_Format := format |}.

(** [resource.NewMilliQuantity] *)
Definition NewMilliQuantity (value : Z) (format : Format) : Quantity :=
  {| Quantity_value := value; Quantity_scale := -3; Quantity_Format := format |}.

End resource.

Module intstr.

Inductive Type_ := Int | String_.

Record IntOrString := {
  IntOrString_Type : Type_;
  IntOrString_IntVal : Z;
  IntOrString_StrVal : string;
}.

End intstr.

Module v1.

Definition PullAlways : string := "Always".
Definition PullNever : string := "Never".
Definition PullIfNotPresent : string := "IfNotPresent".
Definition HostPathDirectoryOrCreate : string := "DirectoryOrCreate".
Definition RestartPolicyNever : string := "Never".
Definition ServiceTypeClusterIP : string := "ClusterIP".
Definition ResourceMemory : string := "memory".
Definition ResourceCPU : string := "cpu".

Record ObjectMeta := {
  ObjectMeta_Name : string;
  ObjectMeta_Namespace : string;
  ObjectMeta_Labels : gmap string string;
}.

Record LocalObjectReference := {
  LocalObjectReference_Name : string;
}.

Record ObjectFieldSelector := {
  ObjectFieldSelector_FieldPath : string;
}.

Record SecretKeySelector := {
  SecretKeySelector_LocalObjectReference : LocalObjectReference;
  SecretKeySelector_Key : string;
  SecretKeySelector_Optional : option bool;
}.

Record EnvVarSource := {
  EnvVarSource_FieldRef : option ObjectFieldSelector;
  EnvVarSource_SecretKeyRef : option SecretKeySelector;
}.

Record EnvVar := {
  EnvVar_Name : string;
  EnvVar_Value : string;
  EnvVar_ValueFrom : option EnvVarSource;
}.

Record KeyToPath := {
  KeyToPath_Key : string;
  KeyToPath_Path : string;
  KeyToPath_Mode : option Z;
}.

Record ConfigMapVolumeSource := {
  ConfigMapVolumeSource_LocalObjectReference : LocalObjectReference;
  ConfigMapVolumeSource_Items : list KeyToPath;
  ConfigMapVolumeSource_Optional : option bool;
}.

Record HostPathVolumeSource := {
  HostPathVolumeSource_Path : string;
  HostPathVolumeSource_Type : option string;
}.

Record SecretVolumeSource := {
  SecretVolumeSource_SecretName : string;
  SecretVolumeSource_Items : list KeyToPath;
}.

Record Volume := {
  Volume_Name : string;
  Volume_HostPath : option HostPathVolumeSource;
  Volume_Secret : option SecretVolumeSource;
  Volume_ConfigMap : option ConfigMapVolumeSource;
}.

Record VolumeMount := {
  VolumeMount_Name : string;
  VolumeMount_MountPath : string;
  VolumeMount_SubPath : string;
}.

Record ContainerPort := {
  ContainerPort_ContainerPort : Z;
}.

Record ResourceRequirements := {
  ResourceRequirements_Limits : option (gmap string resource.Quantity);
  ResourceRequirements_Requests : option (gmap string resource.Quantity);
}.

Record SecurityContext := {
  SecurityContext_Privileged : option bool;
}.

Record Container := {
  Container_Name : string;
  Container_Image : string;
  Container_ImagePullPolicy : string;
  Container_Command : list string;
  Container_Args : list string;
  Container_WorkingDir : string;
  Container_SecurityContext : option SecurityContext;
  Container_Env : list EnvVar;
  Container_VolumeMounts : list VolumeMount;
  Container_Ports : list ContainerPort;
  Container_Resources : ResourceRequirements;
}.

Record PodSpec := {
  PodSpec_AutomountServiceAccountToken : option bool;
  PodSpec_RestartPolicy : string;
  PodSpec_Containers : list Container;
  PodSpec_ImagePullSecrets : list LocalObjectReference;
  PodSpec_Volumes : list Volume;
}.

Record Pod := {
  Pod_ObjectMeta : ObjectMeta;
  Pod_Spec : PodSpec;
}.

Record Secret := {
  Secret_ObjectMeta : ObjectMeta;
  Secret_Type : string;
  Secret_StringData : gmap string string;
}.

Record Namespace := {
  Namespace_ObjectMeta : ObjectMeta;
}.

Record ServicePort := {
  ServicePort_Name : string;
  ServicePort_Port : Z;
  ServicePort_TargetPort : intstr.IntOrString;
}.

Record ServiceSpec := {
  ServiceSpec_Type : string;
  ServiceSpec_Selector : gmap string string;
  ServiceSpec_Ports : list ServicePort;
}.

Record Service := {
  Service_ObjectMeta : ObjectMeta;
  Service_Spec : ServiceSpec;
}.

End v1.

(** ** Package kube: util.go *)

Module kube.
Import engine.

Definition envAutomountServiceAccountToken : string :=
  "PLUGIN_AUTOMOUNTSERVICEACCOUNTTOKEN".

(** The entry appended for a declared pair. *)
Definition literalEnv (kv : string * string) : v1.EnvVar :=
  {| v1.EnvVar_Name := kv.1; v1.EnvVar_Value := kv.2; v1.EnvVar_ValueFrom := None |}.

(** The [KUBERNETES_NODE] entry. *)
Definition nodeEnv : v1.EnvVar :=
  {| v1.EnvVar_Name := "KUBERNETES_NODE";
     v1.EnvVar_Value := "";
     v1.EnvVar_ValueFrom := Some
       {| v1.EnvVarSource_FieldRef :=
            Some {| v1.ObjectFieldSelector_FieldPath := "spec.nodeName" |};
          v1.EnvVarSource_SecretKeyRef := None |} |}.

(** The entry appended for a secret mount that resolved to [sec]. *)
Definition secretEnv (secret : SecretVar) (sec : Secret) : v1.EnvVar :=
  let optional := true in
  {| v1.EnvVar_Name := SecretVar_Env secret;
     v1.EnvVar_Value := "";
     v1.EnvVar_ValueFrom := Some
       {| v1.EnvVarSource_FieldRef := None;
          v1.EnvVarSource_SecretKeyRef := Some
            {| v1.SecretKeySelector_LocalObjectReference :=
                 {| v1.LocalObjectReference_Name := Metadata_UID (Secret_Metadata sec) |};
               v1.SecretKeySelector_Key := Metadata_UID (Secret_Metadata sec);
               v1.SecretKeySelector_Optional := Some optional |} |} |}.

Definition toEnv (R : MapRange) (spec : Spec) (step : Step) : list v1.EnvVar :=
  let to := [] in
  let to :=
    foldl (λ to kv,
             if bool_decide (kv.1 ≠ envAutomountServiceAccountToken)
             then to ++ [literalEnv kv] else to)
          to (range_map R (Step_Envs step)) in
  let to := to ++ [nodeEnv] in
  foldl (λ to secret,
           match LookupSecret spec (SecretVar_Name secret) with
           | None => to
           | Some sec => to ++ [secretEnv secret sec]
           end)
        to (Step_Secrets step).

Definition toPullPolicy (from : PullPolicy) : string :=
  match from with
  | PullAlways => v1.PullAlways
  | PullNever => v1.PullNever
  | PullIfNotExists => v1.PullIfNotPresent
  | _ => v1.PullIfNotPresent
  end.

Definition toSecret (spec : Spec) (from : Secret) : v1.Secret :=
  {| v1.Secret_ObjectMeta :=
       {| v1.ObjectMeta_Name := Metadata_UID (Secret_Metadata from);
          v1.ObjectMeta_Namespace := "";
          v1.ObjectMeta_Labels := ∅ |};
     v1.Secret_Type := "Opaque";
     v1.Secret_StringData :=
       {[ Metadata_UID (Secret_Metadata from) := Secret_Data from ]} |}.

Definition configVolume (mount : FileMount) (file : File) : v1.Volume :=
  let mode := Go.int32 (FileMount_Mode mount) in
  let optional := false in
  {| v1.Volume_Name := Metadata_UID (File_Metadata file);
     v1.Volume_HostPath := None;
     v1.Volume_Secret := None;
     v1.Volume_ConfigMap := Some
       {| v1.ConfigMapVolumeSource_LocalObjectReference :=
            {| v1.LocalObjectReference_Name := Metadata_UID (File_Metadata file) |};
          v1.ConfigMapVolumeSource_Optional := Some optional;
          v1.ConfigMapVolumeSource_Items :=
            [ {| v1.KeyToPath_Key := Metadata_UID (File_Metadata file);
                 v1.KeyToPath_Path := Go.Base (FileMount_Path mount);
                 v1.KeyToPath_Mode := Some mode |} ] |} |}.

Definition toConfigVolumes (spec : Spec) (step : Step) : list v1.Volume :=
  foldl (λ to mount,
           match LookupFile spec (FileMount_Name mount) with
           | None => to
           | Some file => to ++ [configVolume mount file]
           end)
        [] (Step_Files step).

Definition configMount (mount : FileMount) (file : File) : v1.VolumeMount :=
  {| v1.VolumeMount_Name := Metadata_UID (File_Metadata file);
     v1.VolumeMount_MountPath := Go.Dir (FileMount_Path mount);
     v1.VolumeMount_SubPath := "" |}.

Definition toConfigMounts (spec : Spec) (step : Step) : list v1.VolumeMount :=
  foldl (λ to mount,
           match LookupFile spec (FileMount_Name mount) with
           | None => to
           | Some file => to ++ [configMount mount file]
           end)
        [] (Step_Files step).

(** [None] stands for the nil dereference of [vol.HostPath] on a volume
    with neither [EmptyDir] nor [HostPath]; [toVolumes] never calls the
    function on such a volume. *)
Definition toHostPathVolume (spec : Spec) (vol : Volume) : option v1.Volume :=
  path ← match Volume_EmptyDir vol with
          | Some _ =>
              Some (Go.filepath_Join
                      ["/tmp"; "drone"; Metadata_Namespace (Spec_Metadata spec);
                       Metadata_UID (Volume_Metadata vol)])
          | None => VolumeHostPath_Path <$> Volume_HostPath vol
          end;
  let srcType := v1.HostPathDirectoryOrCreate in
  Some {| v1.Volume_Name := Metadata_UID (Volume_Metadata vol);
          v1.Volume_HostPath := Some
            {| v1.HostPathVolumeSource_Path := path;
               v1.HostPathVolumeSource_Type := Some srcType |};
          v1.Volume_Secret := None;
          v1.Volume_ConfigMap := None |}.

Definition secretVolume (vol : Volume) (item : VolumeSecretItem) (sec : Secret) : v1.Volume :=
  {| v1.Volume_Name :=
       Go.Sprintf_dash (Metadata_UID (Volume_Metadata vol)) (VolumeSecretItem_Key item);
     v1.Volume_HostPath := None;
     v1.Volume_Secret := Some
       {| v1.SecretVolumeSource_SecretName := Metadata_UID (Secret_Metadata sec);
          v1.SecretVolumeSource_Items :=
            [ {| v1.KeyToPath_Key := Metadata_UID (Secret_Metadata sec);
                 v1.KeyToPath_Path := VolumeSecretItem_Path item;
                 v1.KeyToPath_Mode := VolumeSecretItem_Mode item |} ] |};
     v1.Volume_ConfigMap := None |}.

(** The name under which the secret of an item is looked up. *)
Definition secretName (vol : Volume) (vsec : VolumeSecret) (item : VolumeSecretItem) : string :=
  Go.Sprintf_dash3 (Metadata_Name (Volume_Metadata vol)) (VolumeSecret_Name vsec)
                   (VolumeSecretItem_Key item).

(** [None] stands for the nil dereference of [vol.Secret]; [toVolumes]
    calls the function under the guard [vol.Secret != nil]. *)
Definition toSecretVolumes (spec : Spec) (vol : Volume) : option (list v1.Volume) :=
  vsec ← Volume_Secret vol;
  Some (foldl (λ volumeList item,
                 match LookupSecret spec (secretName vol vsec item) with
                 | None => volumeList
                 | Some sec => volumeList ++ [secretVolume vol item sec]
                 end)
              [] (VolumeSecret_Items vsec)).

Definition toVolumes (spec : Spec) (step : Step) : list v1.Volume :=
  foldl (λ to mount,
           match LookupVolume spec (VolumeMount_Name mount) with
           | None => to
           | Some vol =>
               if bool_decide (Volume_EmptyDir vol ≠ None ∨ Volume_HostPath vol ≠ None)
               then to ++ option_list (toHostPathVolume spec vol)
               else if bool_decide (Volume_Secret vol ≠ None)
               then to ++ default [] (toSecretVolumes spec vol)
               else to
           end)
        [] (Step_Volumes step).

Definition secretVolumeMount (vol : Volume) (mount : VolumeMount) (item : VolumeSecretItem)
  : v1.VolumeMount :=
  {| v1.VolumeMount_Name :=
       Go.Sprintf_dash (Metadata_UID (Volume_Metadata vol)) (VolumeSecretItem_Key item);
     v1.VolumeMount_MountPath :=
       Go.Sprintf_slash (VolumeMount_Path mount) (VolumeSecretItem_Path item);
     v1.VolumeMount_SubPath := VolumeSecretItem_Path item |}.

Definition plainVolumeMount (vol : Volume) (mount : VolumeMount) : v1.VolumeMount :=
  {| v1.VolumeMount_Name := Metadata_UID (Volume_Metadata vol);
     v1.VolumeMount_MountPath := VolumeMount_Path mount;
     v1.VolumeMount_SubPath := "" |}.

Definition toVolumeMounts (spec : Spec) (step : Step) : list v1.VolumeMount :=
  foldl (λ to mount,
           match LookupVolume spec (VolumeMount_Name mount) with
           | None => to
           | Some vol =>
               match Volume_Secret vol with
               | Some vsec =>
                   foldl (λ to item, to ++ [secretVolumeMount vol mount item])
                         to (VolumeSecret_Items vsec)
               | None => to ++ [plainVolumeMount vol mount]
               end
           end)
        [] (Step_Volumes step).

Definition toPorts (step : Step) : list v1.ContainerPort :=
  if bool_decide (length (DockerStep_Ports (Step_Docker step)) = 0%nat) then []
  else
    foldl (λ ports port,
             ports ++ [ {| v1.ContainerPort_ContainerPort := Go.int32 (Port_Port port) |} ])
          [] (DockerStep_Ports (Step_Docker step)).

Definition toNamespace (spec : Spec) : v1.Namespace :=
  {| v1.Namespace_ObjectMeta :=
       {| v1.ObjectMeta_Name := Metadata_Namespace (Spec_Metadata spec);
          v1.ObjectMeta_Namespace := "";
          v1.ObjectMeta_Labels := Metadata_Labels (Spec_Metadata spec) |} |}.

Definition toResources (step : Step) : v1.ResourceRequirements :=
  let limits :=
    match Step_Resources step with
    | Some res =>
        match Resources_Limits res with
        | Some lim =>
            let l : gmap string resource.Quantity := ∅ in
            let l :=
              if Z.ltb 0 (ResourceObject_Memory lim)
              then <[v1.ResourceMemory :=
                       resource.NewQuantity (ResourceObject_Memory lim) resource.BinarySI]> l
              else l in
            let l :=
              if Z.ltb 0 (ResourceObject_CPU lim)
              then <[v1.ResourceCPU :=
                       resource.NewMilliQuantity (ResourceObject_CPU lim) resource.DecimalSI]> l
              else l in
            Some l
        | None => None
        end
    | None => None
    end in
  let requests :=
    match Step_Resources step with
    | Some res =>
        match Resources_Requests res with
        | Some req =>
            let r : gmap string resource.Quantity := ∅ in
            let r :=
              if Z.ltb 0 (ResourceObject_Memory req)
              then <[v1.ResourceMemory :=
                       resource.NewQuantity (ResourceObject_Memory req) resource.BinarySI]> r
              else r in
            let r :=
              if Z.ltb 0 (ResourceObject_CPU req)
              then <[v1.ResourceCPU :=
                       resource.NewMilliQuantity (ResourceObject_CPU req) resource.DecimalSI]> r
              else r in
            Some r
        | None => None
        end
    | None => None
    end in
  {| v1.ResourceRequirements_Limits := limits;
     v1.ResourceRequirements_Requests := requests |}.

(** The loop of [toPod] over the declared environment: it stops at the
    reserved key and takes the value [strconv.ParseBool] returns for it. *)
Fixpoint scanAutomount (envs : list (string * string)) : bool :=
  match envs with
  | [] => false
  | kv :: rest =>
      if bool_decide (kv.1 = envAutomountServiceAccountToken)
      then Go.ParseBool_value kv.2
      else scanAutomount rest
  end.

Definition toPod (R : MapRange) (spec : Spec) (step : Step) : v1.Pod :=
  let volumes := [] ++ toVolumes spec step in
  let volumes := volumes ++ toConfigVolumes spec step in
  let mounts := [] ++ toVolumeMounts spec step in
  let mounts := mounts ++ toConfigMounts spec step in
  let pullSecrets :=
    if bool_decide (0 < length (DockerConfig_Auths (Spec_Docker spec)))%nat
    then [ {| v1.LocalObjectReference_Name := "docker-auth-config" |} ]
    else [] in
  let automountServiceAccountToken := scanAutomount (range_map R (Step_Envs step)) in
  {| v1.Pod_ObjectMeta :=
       {| v1.ObjectMeta_Name := Metadata_UID (Step_Metadata step);
          v1.ObjectMeta_Namespace := Metadata_Namespace (Step_Metadata step);
          v1.ObjectMeta_Labels := Metadata_Labels (Step_Metadata step) |};
     v1.Pod_Spec :=
       {| v1.PodSpec_AutomountServiceAccountToken := Some automountServiceAccountToken;
          v1.PodSpec_RestartPolicy := v1.RestartPolicyNever;
          v1.PodSpec_Containers :=
            [ {| v1.Container_Name := Metadata_UID (Step_Metadata step);
                 v1.Container_Image := DockerStep_Image (Step_Docker step);
                 v1.Container_ImagePullPolicy :=
                   toPullPolicy (DockerStep_PullPolicy (Step_Docker step));
                 v1.Container_Command := DockerStep_Command (Step_Docker step);
                 v1.Container_Args := DockerStep_Args (Step_Docker step);
                 v1.Container_WorkingDir := Step_WorkingDir step;
                 v1.Container_SecurityContext := Some
                   {| v1.SecurityContext_Privileged :=
                        Some (DockerStep_Privileged (Step_Docker step)) |};
                 v1.Container_Env := toEnv R spec step;
                 v1.Container_VolumeMounts := mounts;
                 v1.Container_Ports := toPorts step;
                 v1.Container_Resources := toResources step |} ];
          v1.PodSpec_ImagePullSecrets := pullSecrets;
          v1.PodSpec_Volumes := volumes |} |}.

Definition toDNS (i : string) : string := Go.replace_underscores i.

Definition servicePort (p : Port) : v1.ServicePort :=
  let source := Port_Port p in
  let target := Port_Host p in
  let target := if Z.eqb target 0 then source else target in
  {| v1.ServicePort_Name := Go.Itoa source;
     v1.ServicePort_Port := Go.int32 source;
     v1.ServicePort_TargetPort :=
       {| intstr.IntOrString_Type := intstr.Int;
          intstr.IntOrString_IntVal := Go.int32 target;
          intstr.IntOrString_StrVal := "" |} |}.

Definition toService (spec : Spec) (step : Step) : v1.Service :=
  let ports :=
    foldl (λ ports p, ports ++ [servicePort p]) [] (DockerStep_Ports (Step_Docker step)) in
  {| v1.Service_ObjectMeta :=
       {| v1.ObjectMeta_Name := toDNS (Metadata_Name (Step_Metadata step));
          v1.ObjectMeta_Namespace := Metadata_Namespace (Step_Metadata step);
          v1.ObjectMeta_Labels := ∅ |};
     v1.Service_Spec :=
       {| v1.ServiceSpec_Type := v1.ServiceTypeClusterIP;
          v1.ServiceSpec_Selector :=
            {[ "io.drone.step.name" := Metadata_Name (Step_Metadata step) ]};
          v1.ServiceSpec_Ports := ports |} |}.

(** Modelled from the spec: the engine's setup of a step, which calls
    [toService], is not part of util.go. The specification has the
    companion service emitted only when the step declares at least one
    port, and no service object otherwise. *)
Definition stepService (spec : Spec) (step : Step) : option v1.Service :=
  if bool_decide (length (DockerStep_Ports (Step_Docker step)) = 0%nat) then None
  else Some (toService spec step).

End kube.

(** ** Steps that differ in one mount list, and sample inputs *)

Import engine.

Definition withSecrets (step : Step) (l : list SecretVar) : Step :=
  {| Step_Metadata := Step_Metadata step; Step_Docker := Step_Docker step;
     Step_Envs := Step_Envs step; Step_Files := Step_Files step;
     Step_Resources := Step_Resources step; Step_Secrets := l;
     Step_Volumes := Step_Volumes step; Step_WorkingDir := Step_WorkingDir step |}.

Definition withFiles (step : Step) (l : list FileMount) : Step :=
  {| Step_Metadata := Step_Metadata step; Step_Docker := Step_Docker step;
     Step_Envs := Step_Envs step; Step_Files := l;
     Step_Resources := Step_Resources step; Step_Secrets := Step_Secrets step;
     Step_Volumes := Step_Volumes step; Step_WorkingDir := Step_WorkingDir step |}.

Definition withVolumes (step : Step) (l : list VolumeMount) : Step :=
  {| Step_Metadata := Step_Metadata step; Step_Docker := Step_Docker step;
     Step_Envs := Step_Envs step; Step_Files := Step_Files step;
     Step_Resources := Step_Resources step; Step_Secrets := Step_Secrets step;
     Step_Volumes := l; Step_WorkingDir := Step_WorkingDir step |}.

(** What one volume mount of a step contributes to [toVolumes] and to
    [toVolumeMounts]: the body of their loops. *)
Definition volumesOf (spec : Spec) (mount : VolumeMount) : list v1.Volume :=
  match LookupVolume spec (VolumeMount_Name mount) with
  | None => []
  | Some vol =>
      if bool_decide (Volume_EmptyDir vol ≠ None ∨ Volume_HostPath vol ≠ None)
      then option_list (kube.toHostPathVolume spec vol)
      else if bool_decide (Volume_Secret vol ≠ None)
      then default [] (kube.toSecretVolumes spec vol)
      else []
  end.

Definition mountsOf (spec : Spec) (mount : VolumeMount) : list v1.VolumeMount :=
  match LookupVolume spec (VolumeMount_Name mount) with
  | None => []
  | Some vol =>
      match Volume_Secret vol with
      | Some vsec => kube.secretVolumeMount vol mount <$> VolumeSecret_Items vsec
      | None => [kube.plainVolumeMount vol mount]
      end
  end.

(** A volume that is a [Secret] and nothing else. *)
Definition secretTyped (vol : Volume) (vsec : VolumeSecret) : Prop :=
  Volume_EmptyDir vol = None ∧ Volume_HostPath vol = None ∧ Volume_Secret vol = Some vsec.

Definition meta (uid name : string) : Metadata :=
  {| Metadata_UID := uid; Metadata_Namespace := "ns1"; Metadata_Name := name;
     Metadata_Labels := ∅ |}.

Definition sampleDocker (ports : list Port) : DockerStep :=
  {| DockerStep_Args := []; DockerStep_Command := ["make"]; DockerStep_Image := "golang:1.12";
     DockerStep_Ports := ports; DockerStep_Privileged := false;
     DockerStep_PullPolicy := PullIfNotExists |}.

Definition sampleStep : Step :=
  {| Step_Metadata := meta "step-1" "build_and_test";
     Step_Docker := sampleDocker [];
     Step_Envs := ∅; Step_Files := []; Step_Resources := None; Step_Secrets := [];
     Step_Volumes := []; Step_WorkingDir := "/drone/src" |}.

Definition sampleSpec (secrets : list Secret) (files : list File) (volumes : list Volume) : Spec :=
  {| Spec_Metadata := meta "spec-1" "pipeline";
     Spec_Secrets := secrets; Spec_Files := files; Spec_Volumes := volumes;
     Spec_Docker := {| DockerConfig_Auths := [] |} |}.

(** The entries the loops of util.go append for one element of their input. *)
Definition declaredEnvs (R : MapRange) (step : Step) : list (string * string) :=
  filter (λ kv, kv.1 ≠ kube.envAutomountServiceAccountToken) (range_map R (Step_Envs step)).

Definition secretEnvOf (spec : Spec) (secret : SecretVar) : option v1.EnvVar :=
  kube.secretEnv secret <$> LookupSecret spec (SecretVar_Name secret).

Definition configVolumeOf (spec : Spec) (mount : FileMount) : option v1.Volume :=
  kube.configVolume mount <$> LookupFile spec (FileMount_Name mount).

Definition configMountOf (spec : Spec) (mount : FileMount) : option v1.VolumeMount :=
  kube.configMount mount <$> LookupFile spec (FileMount_Name mount).

Definition secretVolumeOf (spec : Spec) (vol : Volume) (vsec : VolumeSecret)
    (item : VolumeSecretItem) : option v1.Volume :=
  kube.secretVolume vol item <$> LookupSecret spec (kube.secretName vol vsec item).

(** The quantity a resource list holds under a key, if any, and the value
    a step declares for a limit or a request, if any. *)
Definition quantityOf (rl : option (gmap string resource.Quantity)) (k : string)
  : option resource.Quantity :=
  rl ≫= λ m, m !! k.

Definition declaredOf (step : Step) (sel : Resources → option ResourceObject)
    (field : ResourceObject → Z) : option Z :=
  match Step_Resources step with
  | Some res => field <$> sel res
  | None => None
  end.

Definition limitedStep (memory cpu : Z) : Step :=
  {| Step_Metadata := Step_Metadata sampleStep; Step_Docker := Step_Docker sampleStep;
     Step_Envs := ∅; Step_Files := [];
     Step_Resources := Some
       {| Resources_Limits :=
            Some {| ResourceObject_CPU := cpu; ResourceObject_Memory := memory |};
          Resources_Requests := None |};
     Step_Secrets := []; Step_Volumes := []; Step_WorkingDir := "" |}.

(** A file registered as netrc and a step mounting it. *)
Definition netrcFile : File :=
  {| File_Metadata := meta "file-1" "netrc"; File_Data := "machine example.com" |}.

Definition netrcMount (mode : Z) : FileMount :=
  {| FileMount_Name := "netrc"; FileMount_Path := "/root/.netrc"; FileMount_Mode := mode |}.

Definition netrcStep (mode : Z) : Step := withFiles sampleStep [netrcMount mode].

(** A scratch volume and a host directory, and a step mounting both. *)
Definition scratchVolume : Volume :=
  {| Volume_Metadata := meta "vol-abc" "scratch";
     Volume_EmptyDir := Some {| VolumeEmptyDir_Medium := "" |};
     Volume_HostPath := None; Volume_Secret := None |}.

Definition cacheVolume : Volume :=
  {| Volume_Metadata := meta "vol-def" "cache";
     Volume_EmptyDir := None;
     Volume_HostPath := Some {| VolumeHostPath_Path := "/var/lib/cache" |};
     Volume_Secret := None |}.

Definition scratchMount : VolumeMount :=
  {| VolumeMount_Name := "scratch"; VolumeMount_Path := "/scratch" |}.

Definition cacheMount : VolumeMount :=
  {| VolumeMount_Name := "cache"; VolumeMount_Path := "/cache" |}.

(** A step whose three mounts name nothing the specification registers,
    next to one secret that is registered. *)
Definition tokenSecret : Secret :=
  {| Secret_Metadata := meta "sec-1" "token"; Secret_Data := "s3cr3t" |}.

Definition danglingStep : Step :=
  {| Step_Metadata := meta "step-2" "deploy";
     Step_Docker := sampleDocker [];
     Step_Envs := {[ "GOOS" := "linux" ]};
     Step_Files := [ {| FileMount_Name := "missing-file"; FileMount_Path := "/etc/x";
                        FileMount_Mode := 420 |} ];
     Step_Resources := None;
     Step_Secrets := [ {| SecretVar_Name := "token"; SecretVar_Env := "TOKEN" |};
                       {| SecretVar_Name := "missing-secret"; SecretVar_Env := "PASSWORD" |} ];
     Step_Volumes := [ {| VolumeMount_Name := "missing-volume"; VolumeMount_Path := "/data" |} ];
     Step_WorkingDir := "/drone/src" |}.

Definition specWithSecrets (spec : Spec) (secrets : list Secret) : Spec :=
  {| Spec_Metadata := Spec_Metadata spec; Spec_Secrets := secrets;
     Spec_Files := Spec_Files spec; Spec_Volumes := Spec_Volumes spec;
     Spec_Docker := Spec_Docker spec |}.

(** A secret volume of three items, the secrets its items are looked up
    under, and a step mounting the volume. *)
Definition crtItem : VolumeSecretItem :=
  {| VolumeSecretItem_Key := "crt"; VolumeSecretItem_Path := "tls.crt";
     VolumeSecretItem_Mode := Some 420 |}.

Definition keyItem : VolumeSecretItem :=
  {| VolumeSecretItem_Key := "key"; VolumeSecretItem_Path := "tls.key";
     VolumeSecretItem_Mode := Some 256 |}.

Definition caItem : VolumeSecretItem :=
  {| VolumeSecretItem_Key := "ca"; VolumeSecretItem_Path := "ca.crt";
     VolumeSecretItem_Mode := None |}.

Definition certsSecret : VolumeSecret :=
  {| VolumeSecret_Name := "tls"; VolumeSecret_Items := [crtItem; keyItem; caItem] |}.

Definition certsVolume : Volume :=
  {| Volume_Metadata := meta "vol-tls" "certs";
     Volume_EmptyDir := None; Volume_HostPath := None;
     Volume_Secret := Some certsSecret |}.

Definition certsMount : VolumeMount :=
  {| VolumeMount_Name := "certs"; VolumeMount_Path := "/etc/tls" |}.

Definition certsStep : Step := withVolumes sampleStep [certsMount].

Definition crtSecret : Secret :=
  {| Secret_Metadata := meta "sec-crt" "certs-tls-crt"; Secret_Data := "CERTIFICATE" |}.

Definition keySecret : Secret :=
  {| Secret_Metadata := meta "sec-key" "certs-tls-key"; Secret_Data := "PRIVATE KEY" |}.

Definition caSecret : Secret :=
  {| Secret_Metadata := meta "sec-ca" "certs-tls-ca"; Secret_Data := "AUTHORITY" |}.

(** All the volume mounts of the containers of a pod. *)
Definition podMounts (pod : v1.Pod) : list v1.VolumeMount :=
  concat (v1.Container_VolumeMounts <$> v1.PodSpec_Containers (v1.Pod_Spec pod)).

(** The specification that registers the volume and the secrets of all
    its items, and the one where the secret of the item ca is missing. *)
Definition certsSpec : Spec := sampleSpec [crtSecret; keySecret; caSecret] [] [certsVolume].

Definition certsSpecNoCa : Spec := sampleSpec [crtSecret; keySecret] [] [certsVolume].

(** A step that declares the given ports. *)
Definition portStep (ports : list Port) : Step :=
  {| Step_Metadata := meta "step-1" "build_and_test";
     Step_Docker := sampleDocker ports;
     Step_Envs := ∅; Step_Files := []; Step_Resources := None; Step_Secrets := [];
     Step_Volumes := []; Step_WorkingDir := "/drone/src" |}.

(** The byte [strings.Replace] leaves in place of [c]. *)
Definition dnsByte (c : ascii) : ascii :=
  if Ascii.eqb c Go.underscore then Go.hyphen else c.

(** A specification with registry credentials, and a step whose
    environment binds the reserved key. *)
Definition authSpec : Spec :=
  {| Spec_Metadata := meta "spec-1" "pipeline";
     Spec_Secrets := [tokenSecret]; Spec_Files := []; Spec_Volumes := [];
     Spec_Docker :=
       {| DockerConfig_Auths :=
            [ {| DockerAuth_Address := "docker.io"; DockerAuth_Username := "octocat";
                 DockerAuth_Password := "correct-horse" |} ] |} |}.

Definition flagStep (flag : string) : Step :=
  {| Step_Metadata := meta "step-3" "publish";
     Step_Docker := sampleDocker [];
     Step_Envs := {[ "GOOS" := "linux"; "PLUGIN_AUTOMOUNTSERVICEACCOUNTTOKEN" := flag ]};
     Step_Files := []; Step_Resources := None;
     Step_Secrets := [ {| SecretVar_Name := "token"; SecretVar_Env := "TOKEN" |};
                       {| SecretVar_Name := "missing-secret"; SecretVar_Env := "PASSWORD" |} ];
     Step_Volumes := []; Step_WorkingDir := "/drone/src" |}.

(** The container port [toPorts] makes of a declared port. *)
Definition containerPort (port : Port) : v1.ContainerPort :=
  {| v1.ContainerPort_ContainerPort := Go.int32 (Port_Port port) |}.

(** The spellings [strconv.ParseBool] reads as true. *)
Definition trueSpellings : list string := ["1"; "t"; "T"; "TRUE"; "true"; "True"].

(** A volume that is an [EmptyDir] or a [HostPath] and not a [Secret]; a
    volume of no kind at all. *)
Definition hostTyped (vol : Volume) : Prop :=
  (Volume_EmptyDir vol ≠ None ∨ Volume_HostPath vol ≠ None) ∧ Volume_Secret vol = None.

Definition kindless (vol : Volume) : Prop :=
  Volume_EmptyDir vol = None ∧ Volume_HostPath vol = None ∧ Volume_Secret vol = None.

(** A volume mount whose volume, when it resolves, is of one kind only
    and, when that is [Secret], has the secret of each item registered. *)
Definition wellResolved (spec : Spec) (mount : VolumeMount) : Prop :=
  ∀ vol, LookupVolume spec (VolumeMount_Name mount) = Some vol →
    hostTyped vol
    ∨ ∃ vsec, secretTyped vol vsec
              ∧ ∀ item, item ∈ VolumeSecret_Items vsec →
                        is_Some (LookupSecret spec (kube.secretName vol vsec item)).

(** A volume registered without a kind, and one registered as both a host
    directory and a secret. *)
Definition emptyVolume : Volume :=
  {| Volume_Metadata := meta "vol-none" "nothing";
     Volume_EmptyDir := None; Volume_HostPath := None; Volume_Secret := None |}.

Definition mixedVolume : Volume :=
  {| Volume_Metadata := meta "vol-mix" "mixed";
     Volume_EmptyDir := None;
     Volume_HostPath := Some {| VolumeHostPath_Path := "/srv/tls" |};
     Volume_Secret := Some certsSecret |}.

Definition emptyMount : VolumeMount :=
  {| VolumeMount_Name := "nothing"; VolumeMount_Path := "/nothing" |}.

Definition mixedMount : VolumeMount :=
  {| VolumeMount_Name := "mixed"; VolumeMount_Path := "/mixed" |}.

(** A pod with the environment of its containers replaced. *)
Definition withEnv (env : list v1.EnvVar) (pod : v1.Pod) : v1.Pod :=
  {| v1.Pod_ObjectMeta := v1.Pod_ObjectMeta pod;
     v1.Pod_Spec :=
       {| v1.PodSpec_AutomountServiceAccountToken :=
            v1.PodSpec_AutomountServiceAccountToken (v1.Pod_Spec pod);
          v1.PodSpec_RestartPolicy := v1.PodSpec_RestartPolicy (v1.Pod_Spec pod);
          v1.PodSpec_Containers :=
            (λ c, {| v1.Container_Name := v1.Container_Name c;
                     v1.Container_Image := v1.Container_Image c;
                     v1.Container_ImagePullPolicy := v1.Container_ImagePullPolicy c;
                     v1.Container_Command := v1.Container_Command c;
                     v1.Container_Args := v1.Container_Args c;
                     v1.Container_WorkingDir := v1.Container_WorkingDir c;
                     v1.Container_SecurityContext := v1.Container_SecurityContext c;
                     v1.Container_Env := env;
                     v1.Container_VolumeMounts := v1.Container_VolumeMounts c;
                     v1.Container_Ports := v1.Container_Ports c;
                     v1.Container_Resources := v1.Container_Resources c |})
              <$> v1.PodSpec_Containers (v1.Pod_Spec pod);
          v1.PodSpec_ImagePullSecrets := v1.PodSpec_ImagePullSecrets (v1.Pod_Spec pod);
          v1.PodSpec_Volumes := v1.PodSpec_Volumes (v1.Pod_Spec pod) |} |}.

(** The secret an environment entry refers to, if it refers to one. *)
Definition secretRefOf (e : v1.EnvVar) : option v1.SecretKeySelector :=
  match v1.EnvVar_ValueFrom e with
  | Some src => v1.EnvVarSource_SecretKeyRef src
  | None => None
  end.

(** An order of ranging over maps other than [sorted_range]. *)
Definition reversed_range : MapRange :=
  {| range_map := λ m, reverse (map_to_list m);
     range_map_perm := λ m, reverse_Permutation (map_to_list m) |}.

(** Strings that hold a slash; a plain path segment: not empty, not [.]
    or [..], and without a slash. *)
Fixpoint hasSlash (s : string) : bool :=
  match s with
  | EmptyString => false
  | String c r => Ascii.eqb c Go.slash || hasSlash r
  end.

Definition plainSegment (s : string) : Prop :=
  s ≠ "" ∧ s ≠ "." ∧ s ≠ ".." ∧ hasSlash s = false.

(** The path of the host-path source of a volume, if it has one. *)
Definition hostPathOf (v : v1.Volume) : option string :=
  v1.HostPathVolumeSource_Path <$> v1.Volume_HostPath v.

(** A volume registered as both an empty directory and a host directory. *)
Definition bothVolume : Volume :=
  {| Volume_Metadata := meta "vol-both" "both";
     Volume_EmptyDir := Some {| VolumeEmptyDir_Medium := "" |};
     Volume_HostPath := Some {| VolumeHostPath_Path := "/srv/data" |};
     Volume_Secret := None |}.

(** * Properties *)

(** ** The Go library models on sample inputs *)

Example Itoa_examples :
  Go.Itoa <$> [8080; 0; -17; 65535; 2 ^ 32 + 80]
  = ["8080"; "0"; "-17"; "65535"; "4294967376"].
Proof. vm_compute. reflexivity. Qed.

(** Distinct numbers have distinct decimal strings. *)
Lemma Itoa_inj (m n : Z) : Go.Itoa m = Go.Itoa n → m = n.
Proof. unfold Go.Itoa. apply (inj pretty). Qed.

(** Paths that are clean already; trailing and doubled slashes; [.] and
    [..] elements. *)
Example Clean_examples :
  Go.Clean <$> [""; "abc"; "abc/def"; "."; ".."; "../.."; "../../abc"; "/abc"; "/";
                "abc/"; "abc/def/"; "./"; "../"; "../../"; "/abc/";
                "abc//def//ghi"; "//abc"; "///abc"; "//abc//"; "abc//";
                "abc/./def"; "/./abc/def"; "abc/.";
                "abc/def/ghi/../jkl"; "abc/def/../ghi/../jkl"; "abc/def/.."; "abc/def/../..";
                "/abc/def/../.."; "abc/def/../../.."; "/abc/def/../../..";
                "abc/def/../../../ghi/jkl/../../../mno";
                "abc/./../def"; "abc//./../def"; "abc/../../././../def"; "/../a"]
  = ["."; "abc"; "abc/def"; "."; ".."; "../.."; "../../abc"; "/abc"; "/";
     "abc"; "abc/def"; "."; ".."; "../.."; "/abc";
     "abc/def/ghi"; "/abc"; "/abc"; "/abc"; "abc";
     "abc/def"; "/abc/def"; "abc";
     "abc/def/jkl"; "abc/jkl"; "abc"; ".";
     "/"; ".."; "/";
     "../../mno";
     "def"; "def"; "../../def"; "/a"].
Proof. vm_compute. reflexivity. Qed.

Example Base_examples :
  Go.Base <$> [""; "."; "/."; "/"; "////"; "x/"; "abc"; "abc/def"; "a/b/.x"; "a/b/c.";
               "/etc/app/config.yml"]
  = ["."; "."; "."; "/"; "/"; "x"; "abc"; "def"; ".x"; "c."; "config.yml"].
Proof. vm_compute. reflexivity. Qed.

Example Dir_examples :
  Go.Dir <$> [""; "."; "/."; "/"; "////"; "/foo"; "x/"; "abc"; "abc/def"; "abc////def";
              "a/b/.x"; "/etc/app/config.yml"]
  = ["."; "."; "/"; "/"; "/"; "/"; "x"; "."; "abc"; "abc"; "a/b"; "/etc/app"].
Proof. vm_compute. reflexivity. Qed.

Example filepath_Join_examples :
  Go.filepath_Join <$> [[]; [""]; ["a"]; ["a"; "b"]; ["a"; ""]; [""; "b"]; ["/"; "a"];
                        ["/"; ""]; ["a/"; "b"]; ["a/"; ""]; [""; ""];
                        ["/tmp"; "drone"; "ns1"; "vol-abc"]; ["/tmp"; "drone"; ""; "vol-abc"];
                        ["/tmp"; "drone"; "ns1"; "../x"]]
  = [""; ""; "a"; "a/b"; "a"; "b"; "/a"; "/"; "a/b"; "a"; "";
     "/tmp/drone/ns1/vol-abc"; "/tmp/drone/vol-abc"; "/tmp/drone/x"].
Proof. vm_compute. reflexivity. Qed.

Example int32_examples :
  Go.int32 8080 = 8080 ∧ Go.int32 (-1) = -1 ∧ Go.int32 (2 ^ 31) = - 2 ^ 31
  ∧ Go.int32 (2 ^ 32 + 80) = 80.
Proof. vm_compute. repeat split. Qed.

Lemma int32_id x : Go.in_int32 x → Go.int32 x = x.
Proof.
  unfold Go.in_int32, Go.int32. intros Hx.
  rewrite Z.mod_small by lia. lia.
Qed.

Lemma int32_range x : Go.in_int32 (Go.int32 x).
Proof.
  unfold Go.in_int32, Go.int32.
  pose proof (Z.mod_pos_bound (x + 2 ^ 31) (2 ^ 32) ltac:(lia)). lia.
Qed.

Lemma ParseBool_value_error s : Go.ParseBool s = None → Go.ParseBool_value s = false.
Proof. unfold Go.ParseBool_value. by intros ->. Qed.

(** ** Loops that append *)

Section loops.
Context {A B : Type}.

(** A loop that appends one element or skips ([continue]). *)
Lemma foldl_snoc_omap (h : list B → A → list B) (f : A → option B)
    (l : list A) (acc : list B) :
  (∀ to a, h to a = match f a with None => to | Some b => to ++ [b] end) →
  foldl h acc l = acc ++ omap f l.
Proof.
  intros Hh. revert acc. induction l as [|a l IH]; intros acc; simpl.
  - by rewrite app_nil_r.
  - rewrite IH, Hh. destruct (f a); simpl; [|done]. by rewrite <- app_assoc.
Qed.

(** A loop that appends a slice. *)
Lemma foldl_app_concat (h : list B → A → list B) (g : A → list B)
    (l : list A) (acc : list B) :
  (∀ to a, h to a = to ++ g a) →
  foldl h acc l = acc ++ concat (g <$> l).
Proof.
  intros Hh. revert acc. induction l as [|a l IH]; intros acc; simpl.
  - by rewrite app_nil_r.
  - rewrite IH, Hh. by rewrite <- app_assoc.
Qed.

(** A loop that appends one element on a condition. *)
Lemma foldl_snoc_filter (P : A → Prop) `{!∀ a, Decision (P a)} (g : A → B)
    (l : list A) (acc : list B) :
  foldl (λ to a, if bool_decide (P a) then to ++ [g a] else to) acc l
  = acc ++ (g <$> filter P l).
Proof.
  revert acc. induction l as [|a l IH]; intros acc; simpl.
  - by rewrite app_nil_r.
  - rewrite IH. rewrite filter_cons. case_bool_decide.
    + rewrite decide_True by done. simpl. by rewrite <- app_assoc.
    + by rewrite decide_False by done.
Qed.

Lemma foldl_snoc_map (g : A → B) (l : list A) (acc : list B) :
  foldl (λ to a, to ++ [g a]) acc l = acc ++ (g <$> l).
Proof.
  revert acc. induction l as [|a l IH]; intros acc; simpl.
  - by rewrite app_nil_r.
  - rewrite IH. by rewrite <- app_assoc.
Qed.

Lemma omap_skip (f : A → option B) (l1 l2 : list A) (a : A) :
  f a = None → omap f (l1 ++ a :: l2) = omap f (l1 ++ l2).
Proof. intros Ha. rewrite !omap_app. simpl. by rewrite Ha. Qed.
End loops.

(** ** The translation functions as maps over their input lists *)

Section unfold.
Variables (R : MapRange) (spec : Spec) (step : Step).

Lemma toEnv_unfold :
  kube.toEnv R spec step
  = (kube.literalEnv <$> declaredEnvs R step) ++ [kube.nodeEnv]
    ++ omap (secretEnvOf spec) (Step_Secrets step).
Proof.
  unfold kube.toEnv, declaredEnvs.
  rewrite (foldl_snoc_omap _ (secretEnvOf spec)).
  - rewrite (foldl_snoc_filter (λ kv : string * string,
               kv.1 ≠ kube.envAutomountServiceAccountToken) kube.literalEnv).
    simpl. by rewrite <- app_assoc.
  - intros to a. unfold secretEnvOf.
    by destruct (LookupSecret spec (SecretVar_Name a)).
Qed.

Lemma toConfigVolumes_unfold :
  kube.toConfigVolumes spec step = omap (configVolumeOf spec) (Step_Files step).
Proof.
  unfold kube.toConfigVolumes.
  rewrite (foldl_snoc_omap _ (configVolumeOf spec)); [done|].
  intros to a. unfold configVolumeOf.
  by destruct (LookupFile spec (FileMount_Name a)).
Qed.

Lemma toConfigMounts_unfold :
  kube.toConfigMounts spec step = omap (configMountOf spec) (Step_Files step).
Proof.
  unfold kube.toConfigMounts.
  rewrite (foldl_snoc_omap _ (configMountOf spec)); [done|].
  intros to a. unfold configMountOf.
  by destruct (LookupFile spec (FileMount_Name a)).
Qed.

Lemma toVolumes_unfold :
  kube.toVolumes spec step = concat (volumesOf spec <$> Step_Volumes step).
Proof.
  unfold kube.toVolumes.
  rewrite (foldl_app_concat _ (volumesOf spec)); [done|].
  intros to a. unfold volumesOf.
  destruct (LookupVolume spec (VolumeMount_Name a)) as [vol|];
    repeat case_bool_decide; by rewrite ?app_nil_r.
Qed.

Lemma toVolumeMounts_unfold :
  kube.toVolumeMounts spec step = concat (mountsOf spec <$> Step_Volumes step).
Proof.
  unfold kube.toVolumeMounts.
  rewrite (foldl_app_concat _ (mountsOf spec)); [done|].
  intros to a. unfold mountsOf.
  destruct (LookupVolume spec (VolumeMount_Name a)) as [vol|]; [|by rewrite app_nil_r].
  destruct (Volume_Secret vol) as [vsec|]; [|done].
  apply foldl_snoc_map.
Qed.
End unfold.

Lemma toSecretVolumes_unfold spec vol vsec :
  Volume_Secret vol = Some vsec →
  kube.toSecretVolumes spec vol
  = Some (omap (secretVolumeOf spec vol vsec) (VolumeSecret_Items vsec)).
Proof.
  intros Hs. unfold kube.toSecretVolumes. rewrite Hs. simpl. f_equal.
  rewrite (foldl_snoc_omap _ (secretVolumeOf spec vol vsec)); [done|].
  intros to a. unfold secretVolumeOf.
  by destruct (LookupSecret spec (kube.secretName vol vsec a)).
Qed.

(** ** Secrets *)

(** C6: materializing a secret gives one object of type Opaque, named by
    the secret's UID, whose data has exactly one entry, the UID bound to
    the secret's value; the object is built from that one secret alone,
    whatever else the specification holds. *)
Theorem toSecret_single_entry (spec : Spec) (from : Secret) :
  let uid := Metadata_UID (Secret_Metadata from) in
  let obj := kube.toSecret spec from in
  v1.ObjectMeta_Name (v1.Secret_ObjectMeta obj) = uid
  ∧ v1.Secret_Type obj = "Opaque"
  ∧ v1.Secret_StringData obj = {[ uid := Secret_Data from ]}
  ∧ size (v1.Secret_StringData obj) = 1%nat
  ∧ (∀ k v, v1.Secret_StringData obj !! k = Some v ↔ k = uid ∧ v = Secret_Data from)
  ∧ (∀ spec', kube.toSecret spec' from = obj).
Proof.
  simpl. split_and!; try done.
  - apply map_size_singleton.
  - intros k v. rewrite lookup_singleton_Some. naive_solver.
Qed.

(** ** Resources *)

Lemma resourceList_lookup (memory cpu : Z) (k : string) (q : resource.Quantity) :
  let l : gmap string resource.Quantity := ∅ in
  let l := if Z.ltb 0 memory
           then <[v1.ResourceMemory := resource.NewQuantity memory resource.BinarySI]> l
           else l in
  let l := if Z.ltb 0 cpu
           then <[v1.ResourceCPU := resource.NewMilliQuantity cpu resource.DecimalSI]> l
           else l in
  l !! k = Some q ↔
    (k = v1.ResourceMemory ∧ 0 < memory
     ∧ q = resource.NewQuantity memory resource.BinarySI)
    ∨ (k = v1.ResourceCPU ∧ 0 < cpu
       ∧ q = resource.NewMilliQuantity cpu resource.DecimalSI).
Proof.
  simpl. unfold v1.ResourceMemory, v1.ResourceCPU.
  destruct (Z.ltb_spec 0 memory), (Z.ltb_spec 0 cpu);
    rewrite ?lookup_insert_Some, ?lookup_empty; naive_solver lia.
Qed.

Lemma toResources_lookup (step : Step) (k : string) (q : resource.Quantity) :
  (quantityOf (v1.ResourceRequirements_Limits (kube.toResources step)) k = Some q ↔
     (k = v1.ResourceMemory
      ∧ ∃ v, declaredOf step Resources_Limits ResourceObject_Memory = Some v ∧ 0 < v
             ∧ q = resource.NewQuantity v resource.BinarySI)
     ∨ (k = v1.ResourceCPU
        ∧ ∃ v, declaredOf step Resources_Limits ResourceObject_CPU = Some v ∧ 0 < v
               ∧ q = resource.NewMilliQuantity v resource.DecimalSI))
  ∧ (quantityOf (v1.ResourceRequirements_Requests (kube.toResources step)) k = Some q ↔
     (k = v1.ResourceMemory
      ∧ ∃ v, declaredOf step Resources_Requests ResourceObject_Memory = Some v ∧ 0 < v
             ∧ q = resource.NewQuantity v resource.BinarySI)
     ∨ (k = v1.ResourceCPU
        ∧ ∃ v, declaredOf step Resources_Requests ResourceObject_CPU = Some v ∧ 0 < v
               ∧ q = resource.NewMilliQuantity v resource.DecimalSI)).
Proof.
  unfold kube.toResources, declaredOf, quantityOf.
  destruct (Step_Resources step) as [[lim req]|]; simpl.
  - split.
    + destruct lim as [lim|]; simpl.
      * rewrite resourceList_lookup. naive_solver.
      * naive_solver.
    + destruct req as [req|]; simpl.
      * rewrite resourceList_lookup. naive_solver.
      * naive_solver.
  - naive_solver.
Qed.

(** C4: a quantity is emitted under a key of the limits (of the requests)
    exactly when the step declares limits (requests) and the declared
    value is strictly positive; a zero or negative value leaves the key
    out. Memory is emitted as a plain quantity in the binary format, CPU
    as a milli-quantity in the decimal format, and no other key is
    emitted. *)
Theorem toResources_emits_positive (step : Step) :
  let r := kube.toResources step in
  let limits := quantityOf (v1.ResourceRequirements_Limits r) in
  let requests := quantityOf (v1.ResourceRequirements_Requests r) in
  (∀ q, limits v1.ResourceMemory = Some q ↔
        ∃ v, declaredOf step Resources_Limits ResourceObject_Memory = Some v ∧ 0 < v
             ∧ q = resource.NewQuantity v resource.BinarySI)
  ∧ (∀ q, limits v1.ResourceCPU = Some q ↔
        ∃ v, declaredOf step Resources_Limits ResourceObject_CPU = Some v ∧ 0 < v
             ∧ q = resource.NewMilliQuantity v resource.DecimalSI)
  ∧ (∀ q, requests v1.ResourceMemory = Some q ↔
        ∃ v, declaredOf step Resources_Requests ResourceObject_Memory = Some v ∧ 0 < v
             ∧ q = resource.NewQuantity v resource.BinarySI)
  ∧ (∀ q, requests v1.ResourceCPU = Some q ↔
        ∃ v, declaredOf step Resources_Requests ResourceObject_CPU = Some v ∧ 0 < v
             ∧ q = resource.NewMilliQuantity v resource.DecimalSI)
  ∧ (∀ k, is_Some (limits k) ∨ is_Some (requests k) →
          k = v1.ResourceMemory ∨ k = v1.ResourceCPU).
Proof.
  simpl. split_and!.
  - intros q. rewrite (proj1 (toResources_lookup step _ q)).
    unfold v1.ResourceMemory, v1.ResourceCPU. naive_solver.
  - intros q. rewrite (proj1 (toResources_lookup step _ q)).
    unfold v1.ResourceMemory, v1.ResourceCPU. naive_solver.
  - intros q. rewrite (proj2 (toResources_lookup step _ q)).
    unfold v1.ResourceMemory, v1.ResourceCPU. naive_solver.
  - intros q. rewrite (proj2 (toResources_lookup step _ q)).
    unfold v1.ResourceMemory, v1.ResourceCPU. naive_solver.
  - intros k [[q Hq]|[q Hq]].
    + apply (proj1 (toResources_lookup step k q)) in Hq. naive_solver.
    + apply (proj2 (toResources_lookup step k q)) in Hq. naive_solver.
Qed.

(** Limits of memory 0 and CPU 500: only the CPU entry, as 500 milli-units
    in the decimal format. *)
Example toResources_memory_zero :
  v1.ResourceRequirements_Limits (kube.toResources (limitedStep 0 500))
  = Some {[ "cpu" := {| resource.Quantity_value := 500; resource.Quantity_scale := -3;
                        resource.Quantity_Format := resource.DecimalSI |} ]}
  ∧ quantityOf (v1.ResourceRequirements_Limits (kube.toResources (limitedStep 0 500)))
      "memory" = None
  ∧ v1.ResourceRequirements_Requests (kube.toResources (limitedStep 0 500)) = None.
Proof. split_and!; reflexivity. Qed.

Example toResources_negative :
  v1.ResourceRequirements_Limits (kube.toResources (limitedStep (-1) 0)) = Some ∅.
Proof. reflexivity. Qed.

(** ** Environment *)

Lemma declaredEnvs_perm (R : MapRange) (step : Step) :
  declaredEnvs R step
  ≡ₚ map_to_list (delete kube.envAutomountServiceAccountToken (Step_Envs step)).
Proof.
  unfold declaredEnvs. apply NoDup_Permutation.
  - apply NoDup_filter. rewrite (range_map_perm R). apply NoDup_map_to_list.
  - apply NoDup_map_to_list.
  - intros [k v]. rewrite list_elem_of_filter, (range_map_perm R).
    rewrite !elem_of_map_to_list, lookup_delete_Some. simpl. naive_solver.
Qed.

Lemma range_map_lookup (R : MapRange) (m : gmap string string) (k v : string) :
  (k, v) ∈ range_map R m ↔ m !! k = Some v.
Proof. by rewrite (range_map_perm R), elem_of_map_to_list. Qed.

Lemma range_map_NoDup_keys (R : MapRange) (m : gmap string string) :
  NoDup (range_map R m).*1.
Proof. rewrite (range_map_perm R). apply NoDup_fst_map_to_list. Qed.

(** C5: the environment of a step is the declared pairs other than the
    reserved key, as literal entries in the order the map is ranged over;
    then the entry KUBERNETES_NODE, which has no literal value and refers
    to the field spec.nodeName; then, for each secret mount in order, an
    entry when the secret resolves: named by the mount's variable name,
    referring to the secret object and key both equal to the secret's UID,
    marked optional. No literal entry carries the reserved key. *)
Theorem toEnv_assembled (R : MapRange) (spec : Spec) (step : Step) :
  ∃ declared : list (string * string),
    declared ≡ₚ map_to_list (delete kube.envAutomountServiceAccountToken (Step_Envs step))
    ∧ kube.toEnv R spec step
      = (kube.literalEnv <$> declared) ++ [kube.nodeEnv]
        ++ omap (secretEnvOf spec) (Step_Secrets step)
    ∧ (∀ kv, kube.literalEnv kv
             = {| v1.EnvVar_Name := kv.1; v1.EnvVar_Value := kv.2;
                  v1.EnvVar_ValueFrom := None |})
    ∧ (∀ e, e ∈ kube.toEnv R spec step → v1.EnvVar_ValueFrom e = None →
            v1.EnvVar_Name e ≠ "PLUGIN_AUTOMOUNTSERVICEACCOUNTTOKEN")
    ∧ kube.nodeEnv
      = {| v1.EnvVar_Name := "KUBERNETES_NODE"; v1.EnvVar_Value := "";
           v1.EnvVar_ValueFrom := Some
             {| v1.EnvVarSource_FieldRef :=
                  Some {| v1.ObjectFieldSelector_FieldPath := "spec.nodeName" |};
                v1.EnvVarSource_SecretKeyRef := None |} |}
    ∧ (∀ secret, LookupSecret spec (SecretVar_Name secret) = None →
                 secretEnvOf spec secret = None)
    ∧ (∀ secret sec, LookupSecret spec (SecretVar_Name secret) = Some sec →
         secretEnvOf spec secret = Some
           {| v1.EnvVar_Name := SecretVar_Env secret; v1.EnvVar_Value := "";
              v1.EnvVar_ValueFrom := Some
                {| v1.EnvVarSource_FieldRef := None;
                   v1.EnvVarSource_SecretKeyRef := Some
                     {| v1.SecretKeySelector_LocalObjectReference :=
                          {| v1.LocalObjectReference_Name :=
                               Metadata_UID (Secret_Metadata sec) |};
                        v1.SecretKeySelector_Key := Metadata_UID (Secret_Metadata sec);
                        v1.SecretKeySelector_Optional := Some true |} |} |}).
Proof.
  exists (declaredEnvs R step). split_and!.
  - apply declaredEnvs_perm.
  - apply toEnv_unfold.
  - done.
  - intros e. rewrite toEnv_unfold, !elem_of_app, list_elem_of_singleton.
    intros [He|[->|He]]; [|done|].
    + apply list_elem_of_fmap in He as ([k v] & -> & Hkv).
      unfold declaredEnvs in Hkv. apply list_elem_of_filter in Hkv as [Hk _].
      intros _. exact Hk.
    + apply list_elem_of_omap in He as (secret & _ & Hs).
      unfold secretEnvOf in Hs.
      destruct (LookupSecret spec (SecretVar_Name secret)); simplify_eq/=. done.
  - done.
  - intros secret Hs. unfold secretEnvOf. by rewrite Hs.
  - intros secret sec Hs. unfold secretEnvOf. by rewrite Hs.
Qed.

(** ** Pods *)

Lemma scanAutomount_absent (envs : list (string * string)) :
  kube.envAutomountServiceAccountToken ∉ envs.*1 → kube.scanAutomount envs = false.
Proof.
  induction envs as [|[k v] envs IH]; simpl; [done|].
  rewrite not_elem_of_cons. intros [Hk Hrest].
  rewrite bool_decide_eq_false_2 by done. by apply IH.
Qed.

Lemma scanAutomount_present (envs : list (string * string)) (v : string) :
  NoDup envs.*1 → (kube.envAutomountServiceAccountToken, v) ∈ envs →
  kube.scanAutomount envs = Go.ParseBool_value v.
Proof.
  induction envs as [|[k w] envs IH]; simpl; [by intros _ ?%elem_of_nil|].
  rewrite NoDup_cons, elem_of_cons. intros [Hk Hnd] [Heq|Hin].
  - simplify_eq. by rewrite bool_decide_eq_true_2.
  - case_bool_decide as Hkey; simpl in *.
    + subst k. destruct Hk. apply list_elem_of_fmap. by exists (kube.envAutomountServiceAccountToken, v).
    + by apply IH.
Qed.

(** The loop does not depend on the order in which the map is ranged
    over: it reads the value bound to the reserved key. *)
Lemma scanAutomount_lookup (R : MapRange) (m : gmap string string) :
  kube.scanAutomount (range_map R m)
  = match m !! kube.envAutomountServiceAccountToken with
    | Some v => Go.ParseBool_value v
    | None => false
    end.
Proof.
  destruct (m !! kube.envAutomountServiceAccountToken) as [v|] eqn:Hm.
  - apply scanAutomount_present; [apply range_map_NoDup_keys|].
    by apply range_map_lookup.
  - apply scanAutomount_absent. intros ([k v] & Hk & Hin)%list_elem_of_fmap.
    simpl in Hk. subst k. apply range_map_lookup in Hin. congruence.
Qed.

(** C8: the pod of a step refers to the pull secret docker-auth-config
    exactly when the specification declares registry credentials; its
    auto-mount flag is the boolean parsed from the value the step's
    environment binds to the reserved key, and false when the key is
    absent or the value does not parse; its restart policy is Never; and
    it has exactly one container. *)
Theorem toPod_assembled (R : MapRange) (spec : Spec) (step : Step) :
  let pod := v1.Pod_Spec (kube.toPod R spec step) in
  (DockerConfig_Auths (Spec_Docker spec) ≠ [] →
     v1.PodSpec_ImagePullSecrets pod
     = [ {| v1.LocalObjectReference_Name := "docker-auth-config" |} ])
  ∧ (DockerConfig_Auths (Spec_Docker spec) = [] → v1.PodSpec_ImagePullSecrets pod = [])
  ∧ (∀ v b, Step_Envs step !! "PLUGIN_AUTOMOUNTSERVICEACCOUNTTOKEN" = Some v →
            Go.ParseBool v = Some b →
            v1.PodSpec_AutomountServiceAccountToken pod = Some b)
  ∧ (∀ v, Step_Envs step !! "PLUGIN_AUTOMOUNTSERVICEACCOUNTTOKEN" = Some v →
          Go.ParseBool v = None →
          v1.PodSpec_AutomountServiceAccountToken pod = Some false)
  ∧ (Step_Envs step !! "PLUGIN_AUTOMOUNTSERVICEACCOUNTTOKEN" = None →
     v1.PodSpec_AutomountServiceAccountToken pod = Some false)
  ∧ v1.PodSpec_RestartPolicy pod = "Never"
  ∧ length (v1.PodSpec_Containers pod) = 1%nat.
Proof.
  simpl. split_and!; try done.
  - intros Hauths. case_bool_decide as Hlen; [done|].
    destruct (DockerConfig_Auths (Spec_Docker spec)); simpl in *; [done|lia].
  - intros ->. done.
  - intros v b Hv Hb. rewrite scanAutomount_lookup.
    unfold kube.envAutomountServiceAccountToken. rewrite Hv.
    unfold Go.ParseBool_value. by rewrite Hb.
  - intros v Hv Hb. rewrite scanAutomount_lookup.
    unfold kube.envAutomountServiceAccountToken. rewrite Hv.
    by rewrite ParseBool_value_error.
  - intros Hv. rewrite scanAutomount_lookup.
    unfold kube.envAutomountServiceAccountToken. by rewrite Hv.
Qed.

(** ** Files *)

Lemma toConfigVolumes_split (spec : Spec) (step : Step) (l1 l2 : list FileMount) :
  Step_Files step = l1 ++ l2 →
  kube.toConfigVolumes spec step
  = kube.toConfigVolumes spec (withFiles step l1)
    ++ kube.toConfigVolumes spec (withFiles step l2).
Proof. intros Hl. rewrite !toConfigVolumes_unfold, Hl. simpl. apply omap_app. Qed.

Lemma toConfigMounts_split (spec : Spec) (step : Step) (l1 l2 : list FileMount) :
  Step_Files step = l1 ++ l2 →
  kube.toConfigMounts spec step
  = kube.toConfigMounts spec (withFiles step l1)
    ++ kube.toConfigMounts spec (withFiles step l2).
Proof. intros Hl. rewrite !toConfigMounts_unfold, Hl. simpl. apply omap_app. Qed.

(** C9, as the code has it: a file mount that resolves contributes, at its
    place among the step's file mounts, exactly one config volume and one
    mount. The volume is named by the file's UID and sourced from the
    config object of that name, with one item: key the UID, path the base
    name of the declared path, mode the declared mode converted to a
    signed 32-bit integer, hence the declared mode itself when that fits
    in 32 bits. The mount targets the directory of the declared path. *)
Theorem file_mount_volume_and_mount (spec : Spec) (step : Step)
    (before after : list FileMount) (mount : FileMount) (file : File) :
  Step_Files step = before ++ mount :: after →
  LookupFile spec (FileMount_Name mount) = Some file →
  let uid := Metadata_UID (File_Metadata file) in
  let item mode :=
    {| v1.KeyToPath_Key := uid;
       v1.KeyToPath_Path := Go.Base (FileMount_Path mount);
       v1.KeyToPath_Mode := Some mode |} in
  let volume mode :=
    {| v1.Volume_Name := uid;
       v1.Volume_HostPath := None;
       v1.Volume_Secret := None;
       v1.Volume_ConfigMap := Some
         {| v1.ConfigMapVolumeSource_LocalObjectReference :=
              {| v1.LocalObjectReference_Name := uid |};
            v1.ConfigMapVolumeSource_Items := [item mode];
            v1.ConfigMapVolumeSource_Optional := Some false |} |} in
  kube.toConfigVolumes spec step
  = kube.toConfigVolumes spec (withFiles step before)
    ++ [volume (Go.int32 (FileMount_Mode mount))]
    ++ kube.toConfigVolumes spec (withFiles step after)
  ∧ (Go.in_int32 (FileMount_Mode mount) →
     volume (Go.int32 (FileMount_Mode mount)) = volume (FileMount_Mode mount))
  ∧ kube.toConfigMounts spec step
    = kube.toConfigMounts spec (withFiles step before)
      ++ [ {| v1.VolumeMount_Name := uid;
              v1.VolumeMount_MountPath := Go.Dir (FileMount_Path mount);
              v1.VolumeMount_SubPath := "" |} ]
      ++ kube.toConfigMounts spec (withFiles step after).
Proof.
  intros Hfiles Hfile. simpl. split_and!.
  - rewrite (toConfigVolumes_split spec step before (mount :: after) Hfiles).
    f_equal. rewrite !toConfigVolumes_unfold. simpl.
    unfold configVolumeOf at 1. by rewrite Hfile.
  - intros Hmode. by rewrite int32_id.
  - rewrite (toConfigMounts_split spec step before (mount :: after) Hfiles).
    f_equal. rewrite !toConfigMounts_unfold. simpl.
    unfold configMountOf at 1. by rewrite Hfile.
Qed.

Lemma file_mount_volume_and_mount_witness :
  kube.toConfigVolumes (sampleSpec [] [netrcFile] []) (netrcStep 384)
  = [ {| v1.Volume_Name := "file-1";
         v1.Volume_HostPath := None;
         v1.Volume_Secret := None;
         v1.Volume_ConfigMap := Some
           {| v1.ConfigMapVolumeSource_LocalObjectReference :=
                {| v1.LocalObjectReference_Name := "file-1" |};
              v1.ConfigMapVolumeSource_Items :=
                [ {| v1.KeyToPath_Key := "file-1"; v1.KeyToPath_Path := ".netrc";
                     v1.KeyToPath_Mode := Some 384 |} ];
              v1.ConfigMapVolumeSource_Optional := Some false |} |} ]
  ∧ kube.toConfigMounts (sampleSpec [] [netrcFile] []) (netrcStep 384)
    = [ {| v1.VolumeMount_Name := "file-1"; v1.VolumeMount_MountPath := "/root";
           v1.VolumeMount_SubPath := "" |} ].
Proof.
  destruct (file_mount_volume_and_mount (sampleSpec [] [netrcFile] []) (netrcStep 384)
              [] [] (netrcMount 384) netrcFile eq_refl eq_refl) as (Hv & _ & Hm).
  split; [exact Hv|exact Hm].
Defined.

(** A declared mode that does not fit in 32 bits is not the mode of the
    projected item: the directory bit 2^31 with permissions 0644. *)
Lemma file_mount_mode_counterexample :
  LookupFile (sampleSpec [] [netrcFile] []) (FileMount_Name (netrcMount (2 ^ 31 + 420)))
  = Some netrcFile
  ∧ ∃ cm item,
      v1.Volume_ConfigMap <$> kube.toConfigVolumes (sampleSpec [] [netrcFile] [])
                                (netrcStep (2 ^ 31 + 420)) = [Some cm]
      ∧ v1.ConfigMapVolumeSource_Items cm = [item]
      ∧ v1.KeyToPath_Mode item = Some (-2147483228)
      ∧ v1.KeyToPath_Mode item ≠ Some (FileMount_Mode (netrcMount (2 ^ 31 + 420))).
Proof.
  split; [reflexivity|]. eexists _, _. split_and!; try reflexivity. discriminate.
Qed.

(** ** Volumes *)

Lemma toVolumes_with (spec : Spec) (step : Step) (l : list VolumeMount) :
  kube.toVolumes spec (withVolumes step l) = concat (volumesOf spec <$> l).
Proof. by rewrite toVolumes_unfold. Qed.

Lemma toVolumeMounts_with (spec : Spec) (step : Step) (l : list VolumeMount) :
  kube.toVolumeMounts spec (withVolumes step l) = concat (mountsOf spec <$> l).
Proof. by rewrite toVolumeMounts_unfold. Qed.

(** The volumes and the mounts of a step, around one of its mounts. *)
Lemma toVolumes_split (spec : Spec) (step : Step) (l1 l2 : list VolumeMount)
    (mount : VolumeMount) :
  Step_Volumes step = l1 ++ mount :: l2 →
  kube.toVolumes spec step
  = kube.toVolumes spec (withVolumes step l1) ++ volumesOf spec mount
    ++ kube.toVolumes spec (withVolumes step l2).
Proof.
  intros Hl. rewrite !toVolumes_with, toVolumes_unfold, Hl.
  by rewrite fmap_app, concat_app.
Qed.

Lemma toVolumeMounts_split (spec : Spec) (step : Step) (l1 l2 : list VolumeMount)
    (mount : VolumeMount) :
  Step_Volumes step = l1 ++ mount :: l2 →
  kube.toVolumeMounts spec step
  = kube.toVolumeMounts spec (withVolumes step l1) ++ mountsOf spec mount
    ++ kube.toVolumeMounts spec (withVolumes step l2).
Proof.
  intros Hl. rewrite !toVolumeMounts_with, toVolumeMounts_unfold, Hl.
  by rewrite fmap_app, concat_app.
Qed.

(** Under the guards of [toVolumes] neither helper dereferences nil. *)
Lemma toHostPathVolume_guarded (spec : Spec) (vol : Volume) :
  Volume_EmptyDir vol ≠ None ∨ Volume_HostPath vol ≠ None →
  is_Some (kube.toHostPathVolume spec vol).
Proof.
  unfold kube.toHostPathVolume.
  destruct (Volume_EmptyDir vol), (Volume_HostPath vol); simpl; naive_solver.
Qed.

Lemma toSecretVolumes_guarded (spec : Spec) (vol : Volume) :
  Volume_Secret vol ≠ None → is_Some (kube.toSecretVolumes spec vol).
Proof.
  unfold kube.toSecretVolumes. destruct (Volume_Secret vol); simpl; naive_solver.
Qed.

(** C2: a mount that resolves to an EmptyDir volume contributes one
    host-path volume, named by the volume's UID, whose path is the join of
    /tmp, drone, the namespace of the specification and the volume's UID;
    a mount that resolves to a HostPath volume contributes one whose path
    is the declared host path as it stands; the type is DirectoryOrCreate
    in both. With namespace ns1 and UID vol-abc the joined path is
    /tmp/drone/ns1/vol-abc. *)
Theorem host_path_volume (spec : Spec) (step : Step)
    (before after : list VolumeMount) (mount : VolumeMount) (vol : Volume) :
  Step_Volumes step = before ++ mount :: after →
  LookupVolume spec (VolumeMount_Name mount) = Some vol →
  let hostPathVolume path :=
    {| v1.Volume_Name := Metadata_UID (Volume_Metadata vol);
       v1.Volume_HostPath := Some
         {| v1.HostPathVolumeSource_Path := path;
            v1.HostPathVolumeSource_Type := Some "DirectoryOrCreate" |};
       v1.Volume_Secret := None;
       v1.Volume_ConfigMap := None |} in
  let emptyDirPath :=
    Go.filepath_Join ["/tmp"; "drone"; Metadata_Namespace (Spec_Metadata spec);
                      Metadata_UID (Volume_Metadata vol)] in
  (is_Some (Volume_EmptyDir vol) →
     kube.toHostPathVolume spec vol = Some (hostPathVolume emptyDirPath)
     ∧ kube.toVolumes spec step
       = kube.toVolumes spec (withVolumes step before)
         ++ [hostPathVolume emptyDirPath]
         ++ kube.toVolumes spec (withVolumes step after))
  ∧ (∀ hp, Volume_EmptyDir vol = None → Volume_HostPath vol = Some hp →
       kube.toHostPathVolume spec vol = Some (hostPathVolume (VolumeHostPath_Path hp))
       ∧ kube.toVolumes spec step
         = kube.toVolumes spec (withVolumes step before)
           ++ [hostPathVolume (VolumeHostPath_Path hp)]
           ++ kube.toVolumes spec (withVolumes step after))
  ∧ (Metadata_Namespace (Spec_Metadata spec) = "ns1" →
     Metadata_UID (Volume_Metadata vol) = "vol-abc" →
     emptyDirPath = "/tmp/drone/ns1/vol-abc").
Proof.
  intros Hvols Hvol. simpl. split_and!.
  - intros [ed Hed].
    assert (kube.toHostPathVolume spec vol = Some
      {| v1.Volume_Name := Metadata_UID (Volume_Metadata vol);
         v1.Volume_HostPath := Some
           {| v1.HostPathVolumeSource_Path :=
                Go.filepath_Join ["/tmp"; "drone"; Metadata_Namespace (Spec_Metadata spec);
                                  Metadata_UID (Volume_Metadata vol)];
              v1.HostPathVolumeSource_Type := Some "DirectoryOrCreate" |};
         v1.Volume_Secret := None;
         v1.Volume_ConfigMap := None |}) as Hhp.
    { unfold kube.toHostPathVolume. by rewrite Hed. }
    split; [done|].
    rewrite (toVolumes_split spec step before after mount Hvols).
    unfold volumesOf. rewrite Hvol, Hhp, bool_decide_eq_true_2; [done|].
    left. by rewrite Hed.
  - intros hp Hed Hhost.
    assert (kube.toHostPathVolume spec vol = Some
      {| v1.Volume_Name := Metadata_UID (Volume_Metadata vol);
         v1.Volume_HostPath := Some
           {| v1.HostPathVolumeSource_Path := VolumeHostPath_Path hp;
              v1.HostPathVolumeSource_Type := Some "DirectoryOrCreate" |};
         v1.Volume_Secret := None;
         v1.Volume_ConfigMap := None |}) as Hhp.
    { unfold kube.toHostPathVolume. by rewrite Hed, Hhost. }
    split; [done|].
    rewrite (toVolumes_split spec step before after mount Hvols).
    unfold volumesOf. rewrite Hvol, Hhp, bool_decide_eq_true_2; [done|].
    right. by rewrite Hhost.
  - intros -> ->. vm_compute. reflexivity.
Qed.

Lemma host_path_volume_witness :
  kube.toVolumes (sampleSpec [] [] [scratchVolume; cacheVolume])
                 (withVolumes sampleStep [scratchMount; cacheMount])
  = [ {| v1.Volume_Name := "vol-abc";
         v1.Volume_HostPath := Some
           {| v1.HostPathVolumeSource_Path := "/tmp/drone/ns1/vol-abc";
              v1.HostPathVolumeSource_Type := Some "DirectoryOrCreate" |};
         v1.Volume_Secret := None; v1.Volume_ConfigMap := None |};
      {| v1.Volume_Name := "vol-def";
         v1.Volume_HostPath := Some
           {| v1.HostPathVolumeSource_Path := "/var/lib/cache";
              v1.HostPathVolumeSource_Type := Some "DirectoryOrCreate" |};
         v1.Volume_Secret := None; v1.Volume_ConfigMap := None |} ].
Proof.
  destruct (host_path_volume (sampleSpec [] [] [scratchVolume; cacheVolume])
              (withVolumes sampleStep [scratchMount; cacheMount])
              [] [cacheMount] scratchMount scratchVolume eq_refl eq_refl)
    as (Hempty & _ & Hpath).
  destruct (Hempty (mk_is_Some _ _ eq_refl)) as [_ Hvols].
  rewrite Hvols, (Hpath eq_refl eq_refl).
  destruct (host_path_volume (sampleSpec [] [] [scratchVolume; cacheVolume])
              (withVolumes (withVolumes sampleStep [scratchMount; cacheMount]) [cacheMount])
              [] [] cacheMount cacheVolume eq_refl eq_refl)
    as (_ & Hhost & _).
  destruct (Hhost _ eq_refl eq_refl) as [_ Hvols'].
  rewrite Hvols'. reflexivity.
Defined.

(** ** References that do not resolve *)

Lemma volumesOf_dangling (spec : Spec) (mount : VolumeMount) :
  LookupVolume spec (VolumeMount_Name mount) = None →
  volumesOf spec mount = [] ∧ mountsOf spec mount = [].
Proof. intros Hm. unfold volumesOf, mountsOf. by rewrite Hm. Qed.

(** C3: a secret, file or volume mount of a step whose name does not
    resolve is left out: the environment, the config volumes and mounts,
    and the volumes and mounts are those of the step without that mount,
    and so is the whole pod. The functions return their result directly;
    none has an error result, and the two helpers that dereference a
    field of a volume are given a value for it wherever [toVolumes] calls
    them. *)
Theorem dangling_mount_omitted (R : MapRange) (spec : Spec) (step : Step) :
  (∀ before secret after,
     Step_Secrets step = before ++ secret :: after →
     LookupSecret spec (SecretVar_Name secret) = None →
     kube.toEnv R spec step = kube.toEnv R spec (withSecrets step (before ++ after))
     ∧ kube.toPod R spec step = kube.toPod R spec (withSecrets step (before ++ after)))
  ∧ (∀ before file after,
       Step_Files step = before ++ file :: after →
       LookupFile spec (FileMount_Name file) = None →
       kube.toConfigVolumes spec step
       = kube.toConfigVolumes spec (withFiles step (before ++ after))
       ∧ kube.toConfigMounts spec step
         = kube.toConfigMounts spec (withFiles step (before ++ after))
       ∧ kube.toPod R spec step = kube.toPod R spec (withFiles step (before ++ after)))
  ∧ (∀ before volume after,
       Step_Volumes step = before ++ volume :: after →
       LookupVolume spec (VolumeMount_Name volume) = None →
       kube.toVolumes spec step
       = kube.toVolumes spec (withVolumes step (before ++ after))
       ∧ kube.toVolumeMounts spec step
         = kube.toVolumeMounts spec (withVolumes step (before ++ after))
       ∧ kube.toPod R spec step = kube.toPod R spec (withVolumes step (before ++ after)))
  ∧ (∀ vol, Volume_EmptyDir vol ≠ None ∨ Volume_HostPath vol ≠ None →
            is_Some (kube.toHostPathVolume spec vol))
  ∧ (∀ vol, Volume_Secret vol ≠ None → is_Some (kube.toSecretVolumes spec vol)).
Proof.
  split_and!; [| | |apply toHostPathVolume_guarded|apply toSecretVolumes_guarded].
  - intros before secret after Hl Hs.
    assert (kube.toEnv R spec step
            = kube.toEnv R spec (withSecrets step (before ++ after))) as Henv.
    { rewrite !toEnv_unfold. unfold declaredEnvs. simpl. rewrite Hl.
      do 2 f_equal. apply omap_skip. unfold secretEnvOf. by rewrite Hs. }
    split; [done|]. unfold kube.toPod. by rewrite Henv.
  - intros before file after Hl Hf.
    assert (kube.toConfigVolumes spec step
            = kube.toConfigVolumes spec (withFiles step (before ++ after))) as Hvols.
    { rewrite !toConfigVolumes_unfold. simpl. rewrite Hl.
      apply omap_skip. unfold configVolumeOf. by rewrite Hf. }
    assert (kube.toConfigMounts spec step
            = kube.toConfigMounts spec (withFiles step (before ++ after))) as Hmounts.
    { rewrite !toConfigMounts_unfold. simpl. rewrite Hl.
      apply omap_skip. unfold configMountOf. by rewrite Hf. }
    split_and!; [done..|]. unfold kube.toPod. by rewrite Hvols, Hmounts.
  - intros before volume after Hl Hv.
    destruct (volumesOf_dangling spec volume Hv) as [Hvs Hms].
    assert (kube.toVolumes spec step
            = kube.toVolumes spec (withVolumes step (before ++ after))) as Hvols.
    { rewrite (toVolumes_split spec step before after volume Hl), Hvs.
      rewrite !toVolumes_with. by rewrite fmap_app, concat_app. }
    assert (kube.toVolumeMounts spec step
            = kube.toVolumeMounts spec (withVolumes step (before ++ after))) as Hmounts.
    { rewrite (toVolumeMounts_split spec step before after volume Hl), Hms.
      rewrite !toVolumeMounts_with. by rewrite fmap_app, concat_app. }
    split_and!; [done..|]. unfold kube.toPod. by rewrite Hvols, Hmounts.
Qed.

Lemma dangling_mount_omitted_witness :
  kube.toEnv sorted_range (sampleSpec [tokenSecret] [] []) danglingStep
  = [ {| v1.EnvVar_Name := "GOOS"; v1.EnvVar_Value := "linux"; v1.EnvVar_ValueFrom := None |};
      kube.nodeEnv;
      kube.secretEnv {| SecretVar_Name := "token"; SecretVar_Env := "TOKEN" |} tokenSecret ]
  ∧ kube.toConfigVolumes (sampleSpec [tokenSecret] [] []) danglingStep = []
  ∧ kube.toConfigMounts (sampleSpec [tokenSecret] [] []) danglingStep = []
  ∧ kube.toVolumes (sampleSpec [tokenSecret] [] []) danglingStep = []
  ∧ kube.toVolumeMounts (sampleSpec [tokenSecret] [] []) danglingStep = [].
Proof.
  destruct (dangling_mount_omitted sorted_range (sampleSpec [tokenSecret] [] []) danglingStep)
    as (Hsecrets & Hfiles & Hvolumes & _ & _).
  destruct (Hsecrets [ {| SecretVar_Name := "token"; SecretVar_Env := "TOKEN" |} ]
              {| SecretVar_Name := "missing-secret"; SecretVar_Env := "PASSWORD" |} []
              eq_refl eq_refl) as [Henv _].
  destruct (Hfiles [] {| FileMount_Name := "missing-file"; FileMount_Path := "/etc/x";
                         FileMount_Mode := 420 |} [] eq_refl eq_refl)
    as (Hcv & Hcm & _).
  destruct (Hvolumes [] {| VolumeMount_Name := "missing-volume"; VolumeMount_Path := "/data" |}
              [] eq_refl eq_refl) as (Hv & Hm & _).
  rewrite Henv, Hcv, Hcm, Hv, Hm. split_and!; vm_compute; reflexivity.
Defined.

(** ** Secret volumes *)

Lemma volumesOf_secret (spec : Spec) (mount : VolumeMount) (vol : Volume)
    (vsec : VolumeSecret) :
  LookupVolume spec (VolumeMount_Name mount) = Some vol →
  secretTyped vol vsec →
  volumesOf spec mount = omap (secretVolumeOf spec vol vsec) (VolumeSecret_Items vsec).
Proof.
  intros Hvol (Hed & Hhp & Hs). unfold volumesOf. rewrite Hvol.
  rewrite bool_decide_eq_false_2 by (rewrite Hed, Hhp; naive_solver).
  rewrite bool_decide_eq_true_2 by (by rewrite Hs).
  by rewrite (toSecretVolumes_unfold spec vol vsec Hs).
Qed.

Lemma mountsOf_secret (spec : Spec) (mount : VolumeMount) (vol : Volume)
    (vsec : VolumeSecret) :
  LookupVolume spec (VolumeMount_Name mount) = Some vol →
  Volume_Secret vol = Some vsec →
  mountsOf spec mount = kube.secretVolumeMount vol mount <$> VolumeSecret_Items vsec.
Proof. intros Hvol Hs. unfold mountsOf. by rewrite Hvol, Hs. Qed.

Lemma omap_length_all {A B} (f : A → option B) (l : list A) :
  (∀ a, a ∈ l → is_Some (f a)) → length (omap f l) = length l.
Proof.
  induction l as [|a l IH]; [done|]. intros Hall.
  change (omap f (a :: l))
    with (match f a with Some b => b :: omap f l | None => omap f l end).
  destruct (Hall a) as [b Hb]; [by left|]. rewrite Hb. simpl. f_equal.
  apply IH. intros a' Ha'. apply Hall. by right.
Qed.

Lemma omap_length_le {A B} (f : A → option B) (l : list A) :
  (length (omap f l) ≤ length l)%nat.
Proof.
  induction l as [|a l IH]; [done|].
  change (omap f (a :: l))
    with (match f a with Some b => b :: omap f l | None => omap f l end).
  destruct (f a); simpl; lia.
Qed.

(** C1, as the code has it: a mount that resolves to a Secret volume of N
    items contributes exactly N volume mounts, one per item, named
    {volumeUID}-{itemKey} and mounted at {declaredMountPath}/{itemPath};
    it contributes one cluster volume for each item whose lookup name
    {volumeName}-{secretName}-{itemKey} resolves to a secret, named
    {volumeUID}-{itemKey} and referring to that secret's UID as secret
    name and as the key of its only item, and none for the other items:
    at most N volumes, and exactly N when every item's lookup resolves. *)
Theorem secret_volume_fan_out (spec : Spec) (step : Step)
    (before after : list VolumeMount) (mount : VolumeMount) (vol : Volume)
    (vsec : VolumeSecret) :
  Step_Volumes step = before ++ mount :: after →
  LookupVolume spec (VolumeMount_Name mount) = Some vol →
  secretTyped vol vsec →
  let items := VolumeSecret_Items vsec in
  let uid := Metadata_UID (Volume_Metadata vol) in
  let lookupName item :=
    Metadata_Name (Volume_Metadata vol) +:+ "-" +:+ VolumeSecret_Name vsec +:+ "-"
    +:+ VolumeSecretItem_Key item in
  let volumes := omap (secretVolumeOf spec vol vsec) items in
  let mounts := kube.secretVolumeMount vol mount <$> items in
  kube.toVolumes spec step
  = kube.toVolumes spec (withVolumes step before) ++ volumes
    ++ kube.toVolumes spec (withVolumes step after)
  ∧ kube.toVolumeMounts spec step
    = kube.toVolumeMounts spec (withVolumes step before) ++ mounts
      ++ kube.toVolumeMounts spec (withVolumes step after)
  ∧ length mounts = length items
  ∧ (length volumes ≤ length items)%nat
  ∧ ((∀ item, item ∈ items → is_Some (LookupSecret spec (lookupName item))) →
     length volumes = length items)
  ∧ (∀ item, LookupSecret spec (lookupName item) = None →
             secretVolumeOf spec vol vsec item = None)
  ∧ (∀ item sec, LookupSecret spec (lookupName item) = Some sec →
       secretVolumeOf spec vol vsec item = Some
         {| v1.Volume_Name := uid +:+ "-" +:+ VolumeSecretItem_Key item;
            v1.Volume_HostPath := None;
            v1.Volume_Secret := Some
              {| v1.SecretVolumeSource_SecretName := Metadata_UID (Secret_Metadata sec);
                 v1.SecretVolumeSource_Items :=
                   [ {| v1.KeyToPath_Key := Metadata_UID (Secret_Metadata sec);
                        v1.KeyToPath_Path := VolumeSecretItem_Path item;
                        v1.KeyToPath_Mode := VolumeSecretItem_Mode item |} ] |};
            v1.Volume_ConfigMap := None |})
  ∧ (∀ item, kube.secretVolumeMount vol mount item
             = {| v1.VolumeMount_Name := uid +:+ "-" +:+ VolumeSecretItem_Key item;
                  v1.VolumeMount_MountPath :=
                    VolumeMount_Path mount +:+ "/" +:+ VolumeSecretItem_Path item;
                  v1.VolumeMount_SubPath := VolumeSecretItem_Path item |}).
Proof.
  intros Hvols Hvol Htyped. simpl. split_and!.
  - rewrite (toVolumes_split spec step before after mount Hvols).
    by rewrite (volumesOf_secret spec mount vol vsec Hvol Htyped).
  - rewrite (toVolumeMounts_split spec step before after mount Hvols).
    by rewrite (mountsOf_secret spec mount vol vsec Hvol (proj2 (proj2 Htyped))).
  - apply length_fmap.
  - apply omap_length_le.
  - intros Hall. apply omap_length_all. intros item Hitem.
    destruct (Hall item Hitem) as [sec Hsec].
    unfold secretVolumeOf, kube.secretName, Go.Sprintf_dash3. rewrite Hsec.
    simpl. eauto.
  - intros item Hnone.
    unfold secretVolumeOf, kube.secretName, Go.Sprintf_dash3. by rewrite Hnone.
  - intros item sec Hsec.
    unfold secretVolumeOf, kube.secretName, Go.Sprintf_dash3. by rewrite Hsec.
  - done.
Qed.

Lemma secret_volume_fan_out_witness :
  v1.Volume_Name <$> kube.toVolumes certsSpec certsStep
  = ["vol-tls-crt"; "vol-tls-key"; "vol-tls-ca"]
  ∧ v1.VolumeMount_MountPath <$> kube.toVolumeMounts certsSpec certsStep
    = ["/etc/tls/tls.crt"; "/etc/tls/tls.key"; "/etc/tls/ca.crt"]
  ∧ length (kube.toVolumes certsSpec certsStep) = length (VolumeSecret_Items certsSecret).
Proof.
  destruct (secret_volume_fan_out certsSpec certsStep [] [] certsMount certsVolume
              certsSecret eq_refl eq_refl (conj eq_refl (conj eq_refl eq_refl)))
    as (Hvols & Hmounts & _ & _ & Hall & _).
  rewrite Hvols, Hmounts. split_and!; [reflexivity..|].
  rewrite !toVolumes_with. cbn [fmap list_fmap concat app]. rewrite app_nil_r.
  apply Hall. intros item Hitem.
  repeat (apply elem_of_cons in Hitem as [->|Hitem]; [eexists; vm_compute; reflexivity|]).
  by apply elem_of_nil in Hitem.
Defined.

(** With the secret of one of three items not registered, the volume of
    three items gives two cluster volumes, and still three mounts. *)
Lemma secret_volume_fan_out_counterexample :
  Step_Volumes certsStep = [certsMount]
  ∧ LookupVolume certsSpecNoCa (VolumeMount_Name certsMount) = Some certsVolume
  ∧ secretTyped certsVolume certsSecret
  ∧ length (VolumeSecret_Items certsSecret) = 3%nat
  ∧ length (kube.toVolumes certsSpecNoCa certsStep) = 2%nat
  ∧ length (kube.toVolumeMounts certsSpecNoCa certsStep) = 3%nat
  ∧ length (kube.toVolumes certsSpecNoCa certsStep)
    ≠ length (VolumeSecret_Items certsSecret).
Proof.
  split_and!; try reflexivity.
  - by repeat split.
  - vm_compute. discriminate.
Qed.

Lemma podMounts_toPod (R : MapRange) (spec : Spec) (step : Step) :
  podMounts (kube.toPod R spec step)
  = kube.toVolumeMounts spec step ++ kube.toConfigMounts spec step.
Proof. unfold podMounts. simpl. by rewrite app_nil_r. Qed.

Lemma podVolumes_toPod (R : MapRange) (spec : Spec) (step : Step) :
  v1.PodSpec_Volumes (v1.Pod_Spec (kube.toPod R spec step))
  = kube.toVolumes spec step ++ kube.toConfigVolumes spec step.
Proof. done. Qed.

(** C10: the volume mounts of a step do not depend on the secrets the
    specification registers, so a mount that resolves to a Secret volume
    gives one volume mount per declared item whether the item's secret
    resolves or not; the volume builder gives a volume for an item exactly
    when the name {volumeName}-{secretName}-{itemKey} resolves. So there
    are a specification and a step whose pod has a volume mount that
    names no volume of the pod. *)
Theorem secret_mount_without_volume (R : MapRange) :
  (∀ spec step secrets,
     kube.toVolumeMounts (specWithSecrets spec secrets) step = kube.toVolumeMounts spec step)
  ∧ (∀ spec step before after mount vol vsec,
       Step_Volumes step = before ++ mount :: after →
       LookupVolume spec (VolumeMount_Name mount) = Some vol →
       secretTyped vol vsec →
       kube.toVolumeMounts spec step
       = kube.toVolumeMounts spec (withVolumes step before)
         ++ (kube.secretVolumeMount vol mount <$> VolumeSecret_Items vsec)
         ++ kube.toVolumeMounts spec (withVolumes step after)
       ∧ kube.toSecretVolumes spec vol
         = Some (omap (secretVolumeOf spec vol vsec) (VolumeSecret_Items vsec))
       ∧ ∀ item,
           is_Some (secretVolumeOf spec vol vsec item)
           ↔ is_Some (LookupSecret spec
                        (Metadata_Name (Volume_Metadata vol) +:+ "-"
                         +:+ VolumeSecret_Name vsec +:+ "-" +:+ VolumeSecretItem_Key item)))
  ∧ (∃ spec step m,
       m ∈ podMounts (kube.toPod R spec step)
       ∧ ∀ v, v ∈ v1.PodSpec_Volumes (v1.Pod_Spec (kube.toPod R spec step)) →
              v1.Volume_Name v ≠ v1.VolumeMount_Name m).
Proof.
  split_and!.
  - intros spec step secrets. rewrite !toVolumeMounts_unfold. f_equal.
  - intros spec step before after mount vol vsec Hvols Hvol Htyped. split_and!.
    + rewrite (toVolumeMounts_split spec step before after mount Hvols).
      by rewrite (mountsOf_secret spec mount vol vsec Hvol (proj2 (proj2 Htyped))).
    + apply toSecretVolumes_unfold, Htyped.
    + intros item. unfold secretVolumeOf, kube.secretName, Go.Sprintf_dash3.
      by rewrite fmap_is_Some.
  - exists certsSpecNoCa, certsStep,
      (kube.secretVolumeMount certsVolume certsMount caItem).
    rewrite podMounts_toPod, podVolumes_toPod. split.
    + assert (kube.toVolumeMounts certsSpecNoCa certsStep
              = kube.secretVolumeMount certsVolume certsMount
                  <$> VolumeSecret_Items certsSecret) as -> by reflexivity.
      apply elem_of_app. left. apply list_elem_of_fmap. eexists. split; [done|].
      simpl. set_solver.
    + assert (kube.toVolumes certsSpecNoCa certsStep ++ kube.toConfigVolumes certsSpecNoCa certsStep
              = [kube.secretVolume certsVolume
                   crtItem crtSecret;
                 kube.secretVolume certsVolume
                   keyItem keySecret]) as -> by reflexivity.
      intros v Hv.
      repeat (apply elem_of_cons in Hv as [->|Hv]; [simpl; discriminate|]).
      by apply elem_of_nil in Hv.
Qed.

Lemma secret_mount_without_volume_witness :
  kube.toVolumeMounts certsSpecNoCa certsStep
  = kube.secretVolumeMount certsVolume certsMount <$> VolumeSecret_Items certsSecret
  ∧ kube.toSecretVolumes certsSpecNoCa certsVolume
    = Some [kube.secretVolume certsVolume crtItem crtSecret;
            kube.secretVolume certsVolume keyItem keySecret].
Proof.
  destruct (secret_mount_without_volume sorted_range) as (_ & Hsecret & _).
  destruct (Hsecret certsSpecNoCa certsStep [] [] certsMount certsVolume certsSecret
              eq_refl eq_refl (conj eq_refl (conj eq_refl eq_refl)))
    as (Hmounts & Hvols & _).
  rewrite Hmounts, Hvols. split; reflexivity.
Defined.

(** ** Services *)

Lemma toDNS_length (s : string) : String.length (kube.toDNS s) = String.length s.
Proof. induction s as [|c s IH]; simpl; [done|]. by rewrite <- IH. Qed.

Lemma toDNS_get (s : string) (i : nat) :
  String.get i (kube.toDNS s) = dnsByte <$> String.get i s.
Proof.
  revert i. induction s as [|c s IH]; intros i; simpl; [done|].
  destruct i as [|i]; simpl; [done|]. apply IH.
Qed.

Lemma toService_ports (spec : Spec) (step : Step) :
  v1.ServiceSpec_Ports (v1.Service_Spec (kube.toService spec step))
  = kube.servicePort <$> DockerStep_Ports (Step_Docker step).
Proof. simpl. by rewrite foldl_snoc_map. Qed.

(** C7, as the code has it: a service is made for a step exactly when the
    step declares a port. Each declared port gives, in order, a service
    port named by the decimal string of the container port, whose port is
    the container port converted to a signed 32-bit integer and whose
    target port is the integer, converted likewise, of the host port when
    that is not zero and of the container port otherwise; port and target
    port are the declared numbers themselves when these fit in 32 bits.
    The service is of type ClusterIP, selects the label io.drone.step.name
    bound to the step's name, and is named by the step's name with every
    underscore replaced by a hyphen. *)
Theorem service_of_step (spec : Spec) (step : Step) :
  let ports := DockerStep_Ports (Step_Docker step) in
  let name := Metadata_Name (Step_Metadata step) in
  let service := kube.toService spec step in
  (is_Some (kube.stepService spec step) ↔ ports ≠ [])
  ∧ (∀ s, kube.stepService spec step = Some s → s = service)
  ∧ v1.ServiceSpec_Ports (v1.Service_Spec service) = kube.servicePort <$> ports
  ∧ (∀ p, v1.ServicePort_Name (kube.servicePort p) = Go.Itoa (Port_Port p)
          ∧ v1.ServicePort_Port (kube.servicePort p) = Go.int32 (Port_Port p)
          ∧ v1.ServicePort_TargetPort (kube.servicePort p)
            = {| intstr.IntOrString_Type := intstr.Int;
                 intstr.IntOrString_IntVal :=
                   Go.int32 (if Z.eqb (Port_Host p) 0 then Port_Port p else Port_Host p);
                 intstr.IntOrString_StrVal := "" |})
  ∧ (∀ p, Go.in_int32 (Port_Port p) → Go.in_int32 (Port_Host p) →
          v1.ServicePort_Port (kube.servicePort p) = Port_Port p
          ∧ (Port_Host p ≠ 0 →
             intstr.IntOrString_IntVal (v1.ServicePort_TargetPort (kube.servicePort p))
             = Port_Host p)
          ∧ (Port_Host p = 0 →
             intstr.IntOrString_IntVal (v1.ServicePort_TargetPort (kube.servicePort p))
             = Port_Port p))
  ∧ v1.ServiceSpec_Type (v1.Service_Spec service) = "ClusterIP"
  ∧ v1.ServiceSpec_Selector (v1.Service_Spec service) = {[ "io.drone.step.name" := name ]}
  ∧ v1.ObjectMeta_Name (v1.Service_ObjectMeta service) = kube.toDNS name
  ∧ String.length (kube.toDNS name) = String.length name
  ∧ (∀ i, String.get i (kube.toDNS name) = dnsByte <$> String.get i name).
Proof.
  cbv zeta. split_and!.
  - unfold kube.stepService. destruct (DockerStep_Ports (Step_Docker step)); simpl.
    + split; [by intros [? ?]|done].
    + split; [done|]. intros _. by eexists.
  - unfold kube.stepService. intros s. case_bool_decide; naive_solver.
  - apply toService_ports.
  - done.
  - intros p Hport Hhost. unfold kube.servicePort. simpl. split_and!.
    + by apply int32_id.
    + intros Hnz. rewrite (proj2 (Z.eqb_neq _ _) Hnz). by apply int32_id.
    + intros Hz. rewrite (proj2 (Z.eqb_eq _ _) Hz). by apply int32_id.
  - done.
  - done.
  - done.
  - apply toDNS_length.
  - apply toDNS_get.
Qed.

Lemma service_of_step_witness :
  kube.stepService (sampleSpec [] [] []) (portStep []) = None
  ∧ ∃ s, kube.stepService (sampleSpec [] [] [])
           (portStep [ {| Port_Port := 8080; Port_Host := 0 |};
                       {| Port_Port := 80; Port_Host := 8000 |} ]) = Some s
         ∧ v1.ObjectMeta_Name (v1.Service_ObjectMeta s) = "build-and-test"
         ∧ v1.ServiceSpec_Ports (v1.Service_Spec s)
           = [ {| v1.ServicePort_Name := "8080"; v1.ServicePort_Port := 8080;
                  v1.ServicePort_TargetPort :=
                    {| intstr.IntOrString_Type := intstr.Int;
                       intstr.IntOrString_IntVal := 8080;
                       intstr.IntOrString_StrVal := "" |} |};
               {| v1.ServicePort_Name := "80"; v1.ServicePort_Port := 80;
                  v1.ServicePort_TargetPort :=
                    {| intstr.IntOrString_Type := intstr.Int;
                       intstr.IntOrString_IntVal := 8000;
                       intstr.IntOrString_StrVal := "" |} |} ].
Proof.
  split; [reflexivity|].
  destruct (service_of_step (sampleSpec [] [] [])
              (portStep [ {| Port_Port := 8080; Port_Host := 0 |};
                          {| Port_Port := 80; Port_Host := 8000 |} ]))
    as (Hsome & Heq & Hports & _).
  destruct (proj2 Hsome) as [s Hs]; [discriminate|].
  exists s. split; [exact Hs|].
  rewrite (Heq s Hs). split; [reflexivity|]. rewrite Hports. reflexivity.
Defined.

(** A container port beyond 32 bits is not the port of the service port:
    the declared port 2^32 + 80 gives the service port 80, named
    4294967376. *)
Lemma service_port_counterexample :
  ∃ sp,
    v1.ServiceSpec_Ports (v1.Service_Spec
      (kube.toService (sampleSpec [] [] [])
         (portStep [ {| Port_Port := 2 ^ 32 + 80; Port_Host := 0 |} ]))) = [sp]
    ∧ v1.ServicePort_Name sp = "4294967376"
    ∧ v1.ServicePort_Port sp = 80
    ∧ intstr.IntOrString_IntVal (v1.ServicePort_TargetPort sp) = 80
    ∧ v1.ServicePort_Port sp ≠ Port_Port {| Port_Port := 2 ^ 32 + 80; Port_Host := 0 |}.
Proof. eexists. split_and!; try reflexivity. simpl. discriminate. Qed.

Example toDNS_build_and_test : kube.toDNS "build_and_test" = "build-and-test".
Proof. reflexivity. Qed.

(** ** The theorems on sample pipelines *)

Lemma toPod_assembled_witness :
  v1.PodSpec_ImagePullSecrets (v1.Pod_Spec (kube.toPod sorted_range authSpec (flagStep "true")))
  = [ {| v1.LocalObjectReference_Name := "docker-auth-config" |} ]
  ∧ v1.PodSpec_AutomountServiceAccountToken
      (v1.Pod_Spec (kube.toPod sorted_range authSpec (flagStep "true"))) = Some true
  ∧ v1.PodSpec_AutomountServiceAccountToken
      (v1.Pod_Spec (kube.toPod sorted_range authSpec (flagStep "yes"))) = Some false
  ∧ v1.PodSpec_ImagePullSecrets
      (v1.Pod_Spec (kube.toPod sorted_range (sampleSpec [] [] []) sampleStep)) = []
  ∧ v1.PodSpec_AutomountServiceAccountToken
      (v1.Pod_Spec (kube.toPod sorted_range (sampleSpec [] [] []) sampleStep)) = Some false.
Proof.
  destruct (toPod_assembled sorted_range authSpec (flagStep "true"))
    as (Hpull & _ & Htrue & _).
  destruct (toPod_assembled sorted_range authSpec (flagStep "yes"))
    as (_ & _ & _ & Herr & _).
  destruct (toPod_assembled sorted_range (sampleSpec [] [] []) sampleStep)
    as (_ & Hnone & _ & _ & Habsent & _).
  split_and!.
  - apply Hpull. discriminate.
  - apply (Htrue "true" true); reflexivity.
  - apply (Herr "yes"); reflexivity.
  - apply Hnone. reflexivity.
  - apply Habsent. reflexivity.
Defined.

Lemma toEnv_assembled_witness :
  kube.toEnv sorted_range authSpec (flagStep "true")
  = [ {| v1.EnvVar_Name := "GOOS"; v1.EnvVar_Value := "linux"; v1.EnvVar_ValueFrom := None |};
      {| v1.EnvVar_Name := "KUBERNETES_NODE"; v1.EnvVar_Value := "";
         v1.EnvVar_ValueFrom := Some
           {| v1.EnvVarSource_FieldRef :=
                Some {| v1.ObjectFieldSelector_FieldPath := "spec.nodeName" |};
              v1.EnvVarSource_SecretKeyRef := None |} |};
      {| v1.EnvVar_Name := "TOKEN"; v1.EnvVar_Value := "";
         v1.EnvVar_ValueFrom := Some
           {| v1.EnvVarSource_FieldRef := None;
              v1.EnvVarSource_SecretKeyRef := Some
                {| v1.SecretKeySelector_LocalObjectReference :=
                     {| v1.LocalObjectReference_Name := "sec-1" |};
                   v1.SecretKeySelector_Key := "sec-1";
                   v1.SecretKeySelector_Optional := Some true |} |} |} ].
Proof.
  destruct (toEnv_assembled sorted_range authSpec (flagStep "true"))
    as (declared & Hperm & Henv & _ & _ & _ & Hnone & Hsome).
  assert (declared = [("GOOS", "linux")]) as ->.
  { apply Permutation_singleton_r. rewrite Hperm. vm_compute. reflexivity. }
  rewrite Henv. unfold flagStep. cbn [Step_Secrets omap list_omap].
  rewrite (Hsome {| SecretVar_Name := "token"; SecretVar_Env := "TOKEN" |} tokenSecret eq_refl).
  rewrite (Hnone {| SecretVar_Name := "missing-secret"; SecretVar_Env := "PASSWORD" |} eq_refl).
  reflexivity.
Defined.

(** * Further properties of util.go *)

(** ** Ports *)

Lemma toPorts_unfold (step : Step) :
  kube.toPorts step = containerPort <$> DockerStep_Ports (Step_Docker step).
Proof.
  unfold kube.toPorts. case_bool_decide as Hlen.
  - by destruct (DockerStep_Ports (Step_Docker step)).
  - by rewrite (foldl_snoc_map containerPort).
Qed.

(** X1: the container ports of a step are its declared ports, one for
    one and in order, each the declared container port converted to a
    signed 32-bit integer; the declared host port plays no part, and a
    declared port that fits in 32 bits is passed on unchanged. *)
Theorem toPorts_declared (step : Step) :
  let ports := DockerStep_Ports (Step_Docker step) in
  length (kube.toPorts step) = length ports
  ∧ (∀ i p, ports !! i = Some p →
       kube.toPorts step !! i
       = Some {| v1.ContainerPort_ContainerPort := Go.int32 (Port_Port p) |})
  ∧ (∀ i p, ports !! i = Some p → Go.in_int32 (Port_Port p) →
       v1.ContainerPort_ContainerPort <$> kube.toPorts step !! i = Some (Port_Port p))
  ∧ (ports = [] → kube.toPorts step = []).
Proof.
  cbv zeta. rewrite toPorts_unfold. split_and!.
  - apply length_fmap.
  - intros i p Hp. by rewrite list_lookup_fmap, Hp.
  - intros i p Hp Hr. rewrite list_lookup_fmap, Hp. simpl. by rewrite int32_id.
  - by intros ->.
Qed.

Lemma toPorts_declared_witness :
  kube.toPorts (portStep [ {| Port_Port := 8080; Port_Host := 0 |};
                           {| Port_Port := 80; Port_Host := 8000 |} ])
  = [ {| v1.ContainerPort_ContainerPort := 8080 |};
      {| v1.ContainerPort_ContainerPort := 80 |} ].
Proof.
  destruct (toPorts_declared (portStep [ {| Port_Port := 8080; Port_Host := 0 |};
                                         {| Port_Port := 80; Port_Host := 8000 |} ]))
    as (Hlen & Hget & _ & _).
  apply list_eq. intros [|[|i]].
  - apply (Hget 0%nat {| Port_Port := 8080; Port_Host := 0 |}). reflexivity.
  - apply (Hget 1%nat {| Port_Port := 80; Port_Host := 8000 |}). reflexivity.
  - transitivity (@None v1.ContainerPort); [|reflexivity].
    apply lookup_ge_None_2. rewrite Hlen. simpl. lia.
Defined.

(** X2: the pod and the service of a step expose the same port numbers:
    the container ports of the pod's container are, in order, the ports
    of the service's ports. *)
Theorem pod_and_service_ports (R : MapRange) (spec : Spec) (step : Step) :
  concat ((λ c, v1.ContainerPort_ContainerPort <$> v1.Container_Ports c)
            <$> v1.PodSpec_Containers (v1.Pod_Spec (kube.toPod R spec step)))
  = v1.ServicePort_Port
      <$> v1.ServiceSpec_Ports (v1.Service_Spec (kube.toService spec step)).
Proof.
  rewrite toService_ports. simpl. rewrite app_nil_r, toPorts_unfold.
  rewrite <- !list_fmap_compose. done.
Qed.

(** X3: the names of the service ports of a step are pairwise distinct
    exactly when the declared container ports are. *)
Theorem service_port_names_distinct (spec : Spec) (step : Step) :
  NoDup (v1.ServicePort_Name
           <$> v1.ServiceSpec_Ports (v1.Service_Spec (kube.toService spec step)))
  ↔ NoDup (Port_Port <$> DockerStep_Ports (Step_Docker step)).
Proof.
  rewrite toService_ports, <- list_fmap_compose.
  assert (Inj (=) (=) Go.Itoa) as Hinj by (intros m n; apply Itoa_inj).
  rewrite <- (NoDup_fmap Go.Itoa (Port_Port <$> _)), <- list_fmap_compose.
  done.
Qed.

(** ** Pull policy *)

(** X4: the pull policy of the container is Always for the policy
    PullAlways and for no other, Never for PullNever and for no other,
    and IfNotPresent for every other policy, the default included. *)
Theorem toPullPolicy_cases (from : PullPolicy) :
  (kube.toPullPolicy from = "Always" ↔ from = PullAlways)
  ∧ (kube.toPullPolicy from = "Never" ↔ from = PullNever)
  ∧ (kube.toPullPolicy from = "IfNotPresent" ↔ from ≠ PullAlways ∧ from ≠ PullNever).
Proof. destruct from; simpl; unfold v1.PullAlways, v1.PullNever, v1.PullIfNotPresent; naive_solver. Qed.

(** ** The auto-mount flag *)

(** X5: the pod of a step mounts the service account token exactly when
    the step's environment binds the reserved key to one of the spellings
    1, t, T, TRUE, true, True; any other value, and no value, give a flag
    that is set and false. *)
Theorem automount_true_iff (R : MapRange) (spec : Spec) (step : Step) :
  let flag := v1.PodSpec_AutomountServiceAccountToken (v1.Pod_Spec (kube.toPod R spec step)) in
  (flag = Some true ↔
     ∃ v, Step_Envs step !! "PLUGIN_AUTOMOUNTSERVICEACCOUNTTOKEN" = Some v ∧ v ∈ trueSpellings)
  ∧ (flag = Some true ∨ flag = Some false).
Proof.
  simpl. rewrite scanAutomount_lookup. unfold kube.envAutomountServiceAccountToken.
  destruct (Step_Envs step !! "PLUGIN_AUTOMOUNTSERVICEACCOUNTTOKEN") as [v|].
  - unfold Go.ParseBool_value, Go.ParseBool, trueSpellings.
    repeat case_bool_decide; simpl; split; naive_solver.
  - split; [|by right]. split; [done|]. by intros (v & ? & _).
Qed.

(** ** Mounts and the volumes they name *)

Lemma config_names_paired (spec : Spec) (files : list FileMount) :
  v1.Volume_Name <$> omap (configVolumeOf spec) files
  = v1.VolumeMount_Name <$> omap (configMountOf spec) files.
Proof.
  induction files as [|f files IH]; [done|].
  change (omap (configVolumeOf spec) (f :: files))
    with (match configVolumeOf spec f with
          | Some v => v :: omap (configVolumeOf spec) files
          | None => omap (configVolumeOf spec) files
          end).
  change (omap (configMountOf spec) (f :: files))
    with (match configMountOf spec f with
          | Some m => m :: omap (configMountOf spec) files
          | None => omap (configMountOf spec) files
          end).
  unfold configVolumeOf at 1, configMountOf at 1.
  destruct (LookupFile spec (FileMount_Name f)); simpl; [|done]. by f_equal.
Qed.

Lemma config_mount_has_volume (spec : Spec) (step : Step)
    (m : v1.VolumeMount) :
  m ∈ kube.toConfigMounts spec step →
  ∃ v, v ∈ kube.toConfigVolumes spec step ∧ v1.Volume_Name v = v1.VolumeMount_Name m.
Proof.
  intros Hm.
  assert (v1.VolumeMount_Name m ∈ v1.Volume_Name <$> kube.toConfigVolumes spec step) as Hin.
  { rewrite toConfigVolumes_unfold, config_names_paired, <- toConfigMounts_unfold.
    by apply list_elem_of_fmap_2. }
  apply list_elem_of_fmap in Hin as (v & Hname & Hv). by exists v.
Qed.

(** X6: the config volumes and the config mounts of a step pair up: there
    are as many of the one as of the other, and the mount at each position
    names the volume at that position. *)
Theorem config_mounts_name_config_volumes (spec : Spec) (step : Step) :
  v1.Volume_Name <$> kube.toConfigVolumes spec step
  = v1.VolumeMount_Name <$> kube.toConfigMounts spec step
  ∧ length (kube.toConfigVolumes spec step) = length (kube.toConfigMounts spec step).
Proof.
  assert (v1.Volume_Name <$> kube.toConfigVolumes spec step
          = v1.VolumeMount_Name <$> kube.toConfigMounts spec step) as Hnames.
  { rewrite toConfigVolumes_unfold, toConfigMounts_unfold. apply config_names_paired. }
  split; [done|].
  rewrite <- (length_fmap v1.Volume_Name), Hnames. apply length_fmap.
Qed.

Lemma volumesOf_host (spec : Spec) (mount : VolumeMount) (vol : Volume) :
  LookupVolume spec (VolumeMount_Name mount) = Some vol →
  Volume_EmptyDir vol ≠ None ∨ Volume_HostPath vol ≠ None →
  ∃ v, kube.toHostPathVolume spec vol = Some v
       ∧ volumesOf spec mount = [v]
       ∧ v1.Volume_Name v = Metadata_UID (Volume_Metadata vol).
Proof.
  intros Hvol Hkind. destruct (toHostPathVolume_guarded spec vol Hkind) as [v Hv].
  exists v. split_and!; [done| |].
  - unfold volumesOf. by rewrite Hvol, bool_decide_eq_true_2, Hv.
  - unfold kube.toHostPathVolume in Hv.
    destruct (match Volume_EmptyDir vol with Some _ => _ | None => _ end);
      simplify_eq/=. done.
Qed.

(** X7: a mount that resolves to an EmptyDir or HostPath volume gives, at
    its place, one volume and one volume mount; both are named by the
    volume's UID, and the mount is at the declared path. *)
Theorem host_volume_mount_pair (spec : Spec) (step : Step)
    (before after : list VolumeMount) (mount : VolumeMount) (vol : Volume) :
  Step_Volumes step = before ++ mount :: after →
  LookupVolume spec (VolumeMount_Name mount) = Some vol →
  hostTyped vol →
  ∃ v,
    kube.toVolumes spec step
    = kube.toVolumes spec (withVolumes step before) ++ [v]
      ++ kube.toVolumes spec (withVolumes step after)
    ∧ kube.toVolumeMounts spec step
      = kube.toVolumeMounts spec (withVolumes step before)
        ++ [ {| v1.VolumeMount_Name := Metadata_UID (Volume_Metadata vol);
                v1.VolumeMount_MountPath := VolumeMount_Path mount;
                v1.VolumeMount_SubPath := "" |} ]
        ++ kube.toVolumeMounts spec (withVolumes step after)
    ∧ v1.Volume_Name v = Metadata_UID (Volume_Metadata vol)
    ∧ is_Some (v1.Volume_HostPath v).
Proof.
  intros Hvols Hvol [Hkind Hsec].
  destruct (volumesOf_host spec mount vol Hvol Hkind) as (v & Hv & Hof & Hname).
  exists v. split_and!; [| |done|].
  - by rewrite (toVolumes_split spec step before after mount Hvols), Hof.
  - rewrite (toVolumeMounts_split spec step before after mount Hvols).
    unfold mountsOf. by rewrite Hvol, Hsec.
  - unfold kube.toHostPathVolume in Hv.
    destruct (match Volume_EmptyDir vol with Some _ => _ | None => _ end);
      simplify_eq/=. by eexists.
Qed.

Lemma host_volume_mount_pair_witness :
  v1.Volume_Name <$> kube.toVolumes (sampleSpec [] [] [scratchVolume; cacheVolume])
                       (withVolumes sampleStep [scratchMount; cacheMount])
  = ["vol-abc"; "vol-def"]
  ∧ kube.toVolumeMounts (sampleSpec [] [] [scratchVolume; cacheVolume])
      (withVolumes sampleStep [scratchMount; cacheMount])
    = [ {| v1.VolumeMount_Name := "vol-abc"; v1.VolumeMount_MountPath := "/scratch";
           v1.VolumeMount_SubPath := "" |};
        {| v1.VolumeMount_Name := "vol-def"; v1.VolumeMount_MountPath := "/cache";
           v1.VolumeMount_SubPath := "" |} ].
Proof.
  destruct (host_volume_mount_pair (sampleSpec [] [] [scratchVolume; cacheVolume])
              (withVolumes sampleStep [scratchMount; cacheMount])
              [scratchMount] [] cacheMount cacheVolume eq_refl eq_refl)
    as (v & Hvols & Hmounts & Hname & _).
  { split; [right; discriminate|reflexivity]. }
  rewrite Hvols, Hmounts, !fmap_app.
  change (v1.Volume_Name <$> [v]) with [v1.Volume_Name v].
  rewrite Hname. split; reflexivity.
Defined.

Lemma elem_of_concat_fmap {A B} (g : A → list B) (l : list A) (x : B) :
  x ∈ concat (g <$> l) ↔ ∃ a, a ∈ l ∧ x ∈ g a.
Proof.
  induction l as [|a l IH]; simpl.
  - split; [by intros ?%elem_of_nil|]. by intros (a & ?%elem_of_nil & _).
  - rewrite elem_of_app, IH. split.
    + intros [Hx|(a' & Ha' & Hx)]; [exists a; split; [by left|done]|].
      exists a'. split; [by right|done].
    + intros (a' & [->|Ha']%elem_of_cons & Hx); [by left|]. right. by exists a'.
Qed.

(** X8: when every volume mount of a step that resolves does so to a
    volume of one kind only, with the secret of every item of a Secret
    volume registered, every volume mount of the pod names a volume of
    the pod. *)
Theorem pod_mounts_name_pod_volumes (R : MapRange) (spec : Spec) (step : Step) :
  (∀ mount, mount ∈ Step_Volumes step → wellResolved spec mount) →
  ∀ m, m ∈ podMounts (kube.toPod R spec step) →
    ∃ v, v ∈ v1.PodSpec_Volumes (v1.Pod_Spec (kube.toPod R spec step))
         ∧ v1.Volume_Name v = v1.VolumeMount_Name m.
Proof.
  intros Hwell m. rewrite podMounts_toPod, podVolumes_toPod.
  rewrite elem_of_app. intros [Hm|Hm].
  - rewrite toVolumeMounts_unfold in Hm.
    apply elem_of_concat_fmap in Hm as (mount & Hmount & Hm).
    assert (∃ v, v ∈ volumesOf spec mount ∧ v1.Volume_Name v = v1.VolumeMount_Name m)
      as (v & Hv & Hname).
    { specialize (Hwell mount Hmount). unfold wellResolved in Hwell.
      destruct (LookupVolume spec (VolumeMount_Name mount)) as [vol|] eqn:Hvol;
        [|unfold mountsOf in Hm; rewrite Hvol in Hm; by apply elem_of_nil in Hm].
      destruct (Hwell vol eq_refl) as [[Hkind Hsec]|(vsec & Htyped & Hall)].
      - destruct (volumesOf_host spec mount vol Hvol Hkind) as (v & _ & Hof & Hname).
        exists v. rewrite Hof. split; [by left|].
        unfold mountsOf in Hm. rewrite Hvol, Hsec in Hm.
        apply list_elem_of_singleton in Hm as ->. by rewrite Hname.
      - rewrite (mountsOf_secret spec mount vol vsec Hvol (proj2 (proj2 Htyped))) in Hm.
        apply list_elem_of_fmap in Hm as (item & -> & Hitem).
        destruct (Hall item Hitem) as [sec Hsec].
        exists (kube.secretVolume vol item sec). split; [|done].
        rewrite (volumesOf_secret spec mount vol vsec Hvol Htyped).
        apply list_elem_of_omap. exists item. split; [done|].
        unfold secretVolumeOf. by rewrite Hsec. }
    exists v. split; [|done]. apply elem_of_app. left.
    rewrite toVolumes_unfold. apply elem_of_concat_fmap. by exists mount.
  - destruct (config_mount_has_volume spec step m Hm) as (v & Hv & Hname).
    exists v. split; [|done]. apply elem_of_app. by right.
Qed.

Lemma pod_mounts_name_pod_volumes_witness :
  ∃ v, v ∈ v1.PodSpec_Volumes (v1.Pod_Spec (kube.toPod sorted_range certsSpec certsStep))
       ∧ v1.Volume_Name v = "vol-tls-ca".
Proof.
  refine (pod_mounts_name_pod_volumes sorted_range certsSpec certsStep _
            (kube.secretVolumeMount certsVolume certsMount caItem) _).
  - intros mount Hmount.
    change (Step_Volumes certsStep) with [certsMount] in Hmount.
    apply list_elem_of_singleton in Hmount as ->.
    intros vol Hvol. change (Some certsVolume = Some vol) in Hvol.
    injection Hvol as <-. right. exists certsSecret. split; [by repeat split|].
    intros item Hitem. change (VolumeSecret_Items certsSecret) with [crtItem; keyItem; caItem] in Hitem.
    repeat (apply elem_of_cons in Hitem as [->|Hitem]; [eexists; vm_compute; reflexivity|]).
    by apply elem_of_nil in Hitem.
  - rewrite podMounts_toPod. apply elem_of_app. left.
    change (kube.toVolumeMounts certsSpec certsStep)
      with (kube.secretVolumeMount certsVolume certsMount <$> [crtItem; keyItem; caItem]).
    apply list_elem_of_fmap_2. set_solver.
Defined.

(** X9: a mount that resolves to a volume of no kind gives no volume, yet
    it gives a volume mount, named by the volume's UID at the declared
    path: a mount that names no volume the step's mounts produce. *)
Theorem kindless_volume_mounted (spec : Spec) (step : Step)
    (before after : list VolumeMount) (mount : VolumeMount) (vol : Volume) :
  Step_Volumes step = before ++ mount :: after →
  LookupVolume spec (VolumeMount_Name mount) = Some vol →
  kindless vol →
  kube.toVolumes spec step
  = kube.toVolumes spec (withVolumes step before)
    ++ kube.toVolumes spec (withVolumes step after)
  ∧ kube.toVolumeMounts spec step
    = kube.toVolumeMounts spec (withVolumes step before)
      ++ [ {| v1.VolumeMount_Name := Metadata_UID (Volume_Metadata vol);
              v1.VolumeMount_MountPath := VolumeMount_Path mount;
              v1.VolumeMount_SubPath := "" |} ]
      ++ kube.toVolumeMounts spec (withVolumes step after).
Proof.
  intros Hvols Hvol (Hed & Hhp & Hsec). split.
  - rewrite (toVolumes_split spec step before after mount Hvols).
    unfold volumesOf. rewrite Hvol, Hed, Hhp, Hsec.
    rewrite !bool_decide_eq_false_2 by naive_solver. done.
  - rewrite (toVolumeMounts_split spec step before after mount Hvols).
    unfold mountsOf. by rewrite Hvol, Hsec.
Qed.

Lemma kindless_volume_mounted_witness :
  kube.toVolumes (sampleSpec [] [] [emptyVolume]) (withVolumes sampleStep [emptyMount]) = []
  ∧ kube.toVolumeMounts (sampleSpec [] [] [emptyVolume]) (withVolumes sampleStep [emptyMount])
    = [ {| v1.VolumeMount_Name := "vol-none"; v1.VolumeMount_MountPath := "/nothing";
           v1.VolumeMount_SubPath := "" |} ].
Proof.
  destruct (kindless_volume_mounted (sampleSpec [] [] [emptyVolume])
              (withVolumes sampleStep [emptyMount]) [] [] emptyMount emptyVolume
              eq_refl eq_refl (conj eq_refl (conj eq_refl eq_refl)))
    as [Hvols Hmounts].
  rewrite Hvols, Hmounts. split; reflexivity.
Defined.

(** X10: on a volume that is both a host directory (EmptyDir or HostPath)
    and a Secret the two builders disagree: the volume builder gives the
    one host-path volume named by the volume's UID and no secret volume,
    the mount builder gives the mounts of the secret's items, one per
    item, and no mount of the host-path volume. *)
Theorem mixed_volume_builders_disagree (spec : Spec) (step : Step)
    (before after : list VolumeMount) (mount : VolumeMount) (vol : Volume)
    (vsec : VolumeSecret) :
  Step_Volumes step = before ++ mount :: after →
  LookupVolume spec (VolumeMount_Name mount) = Some vol →
  Volume_EmptyDir vol ≠ None ∨ Volume_HostPath vol ≠ None →
  Volume_Secret vol = Some vsec →
  ∃ v,
    kube.toHostPathVolume spec vol = Some v
    ∧ v1.Volume_Name v = Metadata_UID (Volume_Metadata vol)
    ∧ kube.toVolumes spec step
      = kube.toVolumes spec (withVolumes step before) ++ [v]
        ++ kube.toVolumes spec (withVolumes step after)
    ∧ kube.toVolumeMounts spec step
      = kube.toVolumeMounts spec (withVolumes step before)
        ++ (kube.secretVolumeMount vol mount <$> VolumeSecret_Items vsec)
        ++ kube.toVolumeMounts spec (withVolumes step after).
Proof.
  intros Hvols Hvol Hkind Hsec.
  destruct (volumesOf_host spec mount vol Hvol Hkind) as (v & Hv & Hof & Hname).
  exists v. split_and!; [done..| |].
  - by rewrite (toVolumes_split spec step before after mount Hvols), Hof.
  - rewrite (toVolumeMounts_split spec step before after mount Hvols).
    by rewrite (mountsOf_secret spec mount vol vsec Hvol Hsec).
Qed.

Lemma mixed_volume_builders_disagree_witness :
  v1.Volume_Name <$> kube.toVolumes (sampleSpec [] [] [mixedVolume])
                       (withVolumes sampleStep [mixedMount]) = ["vol-mix"]
  ∧ v1.VolumeMount_Name <$> kube.toVolumeMounts (sampleSpec [] [] [mixedVolume])
                              (withVolumes sampleStep [mixedMount])
    = ["vol-mix-crt"; "vol-mix-key"; "vol-mix-ca"].
Proof.
  destruct (mixed_volume_builders_disagree (sampleSpec [] [] [mixedVolume])
              (withVolumes sampleStep [mixedMount]) [] [] mixedMount mixedVolume certsSecret
              eq_refl eq_refl) as (v & _ & Hname & Hvols & Hmounts); [right; discriminate|reflexivity|].
  rewrite Hvols, Hmounts, !fmap_app.
  change (v1.Volume_Name <$> [v]) with [v1.Volume_Name v].
  rewrite Hname. split; reflexivity.
Defined.

(** X11: the builders treat the mounts of a step one by one and in order:
    the volumes, volume mounts, config volumes and config mounts of a
    step whose mounts are one list followed by another are those of the
    first list followed by those of the second. Nothing is merged: a
    volume mounted twice is emitted twice. *)
Theorem builders_concatenate (spec : Spec) (step : Step) :
  (∀ l1 l2 : list VolumeMount,
     kube.toVolumes spec (withVolumes step (l1 ++ l2))
     = kube.toVolumes spec (withVolumes step l1) ++ kube.toVolumes spec (withVolumes step l2)
     ∧ kube.toVolumeMounts spec (withVolumes step (l1 ++ l2))
       = kube.toVolumeMounts spec (withVolumes step l1)
         ++ kube.toVolumeMounts spec (withVolumes step l2))
  ∧ (∀ l1 l2 : list FileMount,
       kube.toConfigVolumes spec (withFiles step (l1 ++ l2))
       = kube.toConfigVolumes spec (withFiles step l1)
         ++ kube.toConfigVolumes spec (withFiles step l2)
       ∧ kube.toConfigMounts spec (withFiles step (l1 ++ l2))
         = kube.toConfigMounts spec (withFiles step l1)
           ++ kube.toConfigMounts spec (withFiles step l2))
  ∧ (∀ mount : VolumeMount,
       kube.toVolumes spec (withVolumes step [mount; mount])
       = kube.toVolumes spec (withVolumes step [mount])
         ++ kube.toVolumes spec (withVolumes step [mount])).
Proof.
  split_and!.
  - intros l1 l2. rewrite !toVolumes_with, !toVolumeMounts_with.
    by rewrite !fmap_app, !concat_app.
  - intros l1 l2. rewrite !toConfigVolumes_unfold, !toConfigMounts_unfold. simpl.
    by rewrite !omap_app.
  - intros mount. rewrite !toVolumes_with. simpl. by rewrite !app_nil_r.
Qed.

(** ** The environment and the order of ranging over it *)

(** X12: the environment of a step has one entry per declared pair other
    than the reserved key, one for the node, and one per secret mount
    that resolves; the node entry sits right after the declared pairs,
    whatever the step declares (a declared KUBERNETES_NODE included,
    which is kept as a literal before it). *)
Theorem toEnv_length (R : MapRange) (spec : Spec) (step : Step) :
  let declared := size (delete "PLUGIN_AUTOMOUNTSERVICEACCOUNTTOKEN" (Step_Envs step)) in
  length (kube.toEnv R spec step)
  = (declared + 1 + length (omap (secretEnvOf spec) (Step_Secrets step)))%nat
  ∧ kube.toEnv R spec step !! declared = Some kube.nodeEnv
  ∧ (∀ i e, (i < declared)%nat → kube.toEnv R spec step !! i = Some e →
            v1.EnvVar_ValueFrom e = None ∧ Step_Envs step !! v1.EnvVar_Name e = Some (v1.EnvVar_Value e)).
Proof.
  cbv zeta.
  assert (length (kube.literalEnv <$> declaredEnvs R step)
          = size (delete "PLUGIN_AUTOMOUNTSERVICEACCOUNTTOKEN" (Step_Envs step))) as Hlen.
  { rewrite length_fmap, (declaredEnvs_perm R step). apply length_map_to_list. }
  rewrite toEnv_unfold. split_and!.
  - rewrite !length_app, Hlen. simpl. lia.
  - rewrite lookup_app_r by lia. by rewrite Hlen, Nat.sub_diag.
  - intros i e Hi He. rewrite lookup_app_l in He by lia.
    apply list_lookup_fmap_Some in He as ([k v] & -> & Hkv).
    apply list_elem_of_lookup_2 in Hkv.
    unfold declaredEnvs in Hkv. apply list_elem_of_filter in Hkv as [_ Hkv].
    apply range_map_lookup in Hkv. done.
Qed.

Lemma toEnv_length_witness :
  kube.toEnv sorted_range authSpec (flagStep "true") !! 0%nat
  = Some {| v1.EnvVar_Name := "GOOS"; v1.EnvVar_Value := "linux";
            v1.EnvVar_ValueFrom := None |}
  ∧ Step_Envs (flagStep "true") !! "GOOS" = Some "linux".
Proof.
  destruct (toEnv_length sorted_range authSpec (flagStep "true")) as (_ & _ & Hlit).
  split; [vm_compute; reflexivity|].
  refine (proj2 (Hlit 0%nat {| v1.EnvVar_Name := "GOOS"; v1.EnvVar_Value := "linux";
                               v1.EnvVar_ValueFrom := None |} _ _)).
  - vm_compute. lia.
  - vm_compute. reflexivity.
Defined.

(** X13: the order in which the environment map is ranged over shows in
    the pod only as the order of the literal entries of the environment:
    two orders give environments that are permutations of each other,
    with the same entries from the node entry on, and pods that are equal
    once the environment of one is put into the other. *)
Theorem pod_up_to_range_order (R1 R2 : MapRange) (spec : Spec) (step : Step) :
  kube.toEnv R1 spec step ≡ₚ kube.toEnv R2 spec step
  ∧ drop (length (declaredEnvs R1 step)) (kube.toEnv R1 spec step)
    = drop (length (declaredEnvs R2 step)) (kube.toEnv R2 spec step)
  ∧ length (declaredEnvs R1 step) = length (declaredEnvs R2 step)
  ∧ withEnv (kube.toEnv R1 spec step) (kube.toPod R2 spec step) = kube.toPod R1 spec step.
Proof.
  assert (declaredEnvs R1 step ≡ₚ declaredEnvs R2 step) as Hperm.
  { by rewrite !declaredEnvs_perm. }
  split_and!.
  - rewrite !toEnv_unfold. by rewrite Hperm.
  - rewrite !toEnv_unfold.
    rewrite <- (length_fmap kube.literalEnv (declaredEnvs R1 step)).
    rewrite <- (length_fmap kube.literalEnv (declaredEnvs R2 step)).
    by rewrite !drop_app_length.
  - by rewrite Hperm.
  - unfold withEnv, kube.toPod. simpl.
    by rewrite !scanAutomount_lookup.
Qed.

(** ** Names of services *)

Lemma toDNS_app (a b : string) : kube.toDNS (a +:+ b) = kube.toDNS a +:+ kube.toDNS b.
Proof. induction a as [|c a IH]; simpl; [done|]. by rewrite IH. Qed.

Lemma dnsByte_not_underscore (c : ascii) : dnsByte c ≠ Go.underscore.
Proof.
  unfold dnsByte. destruct (Ascii.eqb_spec c Go.underscore); [discriminate|done].
Qed.

Lemma dnsByte_idemp (c : ascii) : dnsByte (dnsByte c) = dnsByte c.
Proof.
  unfold dnsByte. destruct (Ascii.eqb_spec c Go.underscore) as [->|Hne]; [done|].
  by destruct (Ascii.eqb_spec c Go.underscore).
Qed.

(** X14: the name of the service of a step holds no underscore; replacing
    underscores is idempotent, goes through concatenation, and leaves a
    name without underscores as it is. *)
Theorem toDNS_no_underscore (spec : Spec) (step : Step) (s t : string) :
  (∀ i, String.get i (v1.ObjectMeta_Name (v1.Service_ObjectMeta (kube.toService spec step)))
        ≠ Some Go.underscore)
  ∧ (∀ i, String.get i (kube.toDNS s) ≠ Some Go.underscore)
  ∧ kube.toDNS (kube.toDNS s) = kube.toDNS s
  ∧ kube.toDNS (s +:+ t) = kube.toDNS s +:+ kube.toDNS t
  ∧ ((∀ i, String.get i s ≠ Some Go.underscore) → kube.toDNS s = s).
Proof.
  assert (∀ u i, String.get i (kube.toDNS u) ≠ Some Go.underscore) as Hno.
  { intros u i. rewrite toDNS_get. destruct (String.get i u) as [c|]; simpl; [|done].
    intros [= Hc]. by apply dnsByte_not_underscore in Hc. }
  split_and!.
  - intros i. apply Hno.
  - apply Hno.
  - induction s as [|c s IH]; simpl; [done|]. f_equal; [apply dnsByte_idemp|apply IH].
  - apply toDNS_app.
  - induction s as [|c s IH]; simpl; [done|]. intros Hs. f_equal.
    + specialize (Hs 0%nat). simpl in Hs.
      destruct (Ascii.eqb_spec c Go.underscore) as [->|]; [by destruct Hs|done].
    + apply IH. intros i. apply (Hs (S i)).
Qed.

Lemma toDNS_no_underscore_witness : kube.toDNS "build-and-test" = "build-and-test".
Proof.
  refine (proj2 (proj2 (proj2 (proj2
            (toDNS_no_underscore (sampleSpec [] [] []) sampleStep "build-and-test" ""))))
          _).
  intros i. do 14 (destruct i as [|i]; [simpl; discriminate|]). simpl. discriminate.
Defined.

(** ** References to the objects of secrets *)

(** X15: every reference to a secret that the builders emit points at the
    object [toSecret] makes of the secret that was looked up, and at a
    key that object holds with the secret's value: the reference of an
    environment entry of a step, and the source of the volume of an item
    of a Secret volume. *)
Theorem secret_references_resolve (R : MapRange) (spec : Spec) (step : Step) :
  (∀ e ref, e ∈ kube.toEnv R spec step → secretRefOf e = Some ref →
     ∃ secret sec,
       secret ∈ Step_Secrets step
       ∧ LookupSecret spec (SecretVar_Name secret) = Some sec
       ∧ v1.EnvVar_Name e = SecretVar_Env secret
       ∧ v1.LocalObjectReference_Name (v1.SecretKeySelector_LocalObjectReference ref)
         = v1.ObjectMeta_Name (v1.Secret_ObjectMeta (kube.toSecret spec sec))
       ∧ v1.Secret_StringData (kube.toSecret spec sec) !! v1.SecretKeySelector_Key ref
         = Some (Secret_Data sec))
  ∧ (∀ vol vsec item v, secretVolumeOf spec vol vsec item = Some v →
       ∃ sec src key,
         LookupSecret spec (kube.secretName vol vsec item) = Some sec
         ∧ v1.Volume_Secret v = Some src
         ∧ v1.SecretVolumeSource_SecretName src
           = v1.ObjectMeta_Name (v1.Secret_ObjectMeta (kube.toSecret spec sec))
         ∧ v1.SecretVolumeSource_Items src = [key]
         ∧ v1.Secret_StringData (kube.toSecret spec sec) !! v1.KeyToPath_Key key
           = Some (Secret_Data sec)).
Proof.
  split.
  - intros e ref. rewrite toEnv_unfold, !elem_of_app, list_elem_of_singleton.
    intros [He|[->|He]] Href.
    + apply list_elem_of_fmap in He as (kv & -> & _). discriminate.
    + discriminate.
    + apply list_elem_of_omap in He as (secret & Hsecret & He).
      unfold secretEnvOf in He.
      destruct (LookupSecret spec (SecretVar_Name secret)) as [sec|] eqn:Hsec; [|done].
      unfold secretRefOf in Href. simplify_eq/=.
      exists secret, sec. split_and!; try done.
      apply lookup_singleton_eq.
  - intros vol vsec item v Hv. unfold secretVolumeOf in Hv.
    destruct (LookupSecret spec (kube.secretName vol vsec item)) as [sec|]; [|done].
    simplify_eq/=. eexists sec, _, _. split_and!; try done.
    apply lookup_singleton_eq.
Qed.

Lemma secret_references_resolve_witness :
  ∃ secret sec,
    secret ∈ Step_Secrets (flagStep "true")
    ∧ LookupSecret authSpec (SecretVar_Name secret) = Some sec
    ∧ v1.ObjectMeta_Name (v1.Secret_ObjectMeta (kube.toSecret authSpec sec)) = "sec-1"
    ∧ v1.Secret_StringData (kube.toSecret authSpec sec) !! "sec-1" = Some (Secret_Data sec).
Proof.
  destruct (secret_references_resolve sorted_range authSpec (flagStep "true")) as [Henv _].
  destruct (Henv (kube.secretEnv {| SecretVar_Name := "token"; SecretVar_Env := "TOKEN" |}
                    tokenSecret)
              {| v1.SecretKeySelector_LocalObjectReference :=
                   {| v1.LocalObjectReference_Name := "sec-1" |};
                 v1.SecretKeySelector_Key := "sec-1";
                 v1.SecretKeySelector_Optional := Some true |})
    as (secret & sec & Hin & Hsec & _ & Hname & Hdata).
  - vm_compute. set_solver.
  - reflexivity.
  - exists secret, sec. split_and!; [exact Hin|exact Hsec|symmetry; exact Hname|exact Hdata].
Defined.

(** X16: for each item of a Secret volume whose secret resolves, the
    mount at the item's place names the item's volume, and its sub-path
    is the path under which the volume projects the secret's key. *)
Theorem secret_item_mount_matches_volume (spec : Spec) (mount : VolumeMount)
    (vol : Volume) (vsec : VolumeSecret) (item : VolumeSecretItem) (v : v1.Volume) :
  secretVolumeOf spec vol vsec item = Some v →
  let m := kube.secretVolumeMount vol mount item in
  v1.VolumeMount_Name m = v1.Volume_Name v
  ∧ ∃ src key,
      v1.Volume_Secret v = Some src
      ∧ v1.SecretVolumeSource_Items src = [key]
      ∧ v1.KeyToPath_Path key = v1.VolumeMount_SubPath m
      ∧ v1.KeyToPath_Mode key = VolumeSecretItem_Mode item.
Proof.
  intros Hv. unfold secretVolumeOf in Hv.
  destruct (LookupSecret spec (kube.secretName vol vsec item)) as [sec|]; [|done].
  simplify_eq/=. split; [done|]. by eexists _, _.
Qed.

Lemma secret_item_mount_matches_volume_witness :
  v1.VolumeMount_Name (kube.secretVolumeMount certsVolume certsMount keyItem)
  = v1.Volume_Name (kube.secretVolume certsVolume keyItem keySecret).
Proof.
  exact (proj1 (secret_item_mount_matches_volume certsSpec certsMount certsVolume
                  certsSecret keyItem (kube.secretVolume certsVolume keyItem keySecret)
                  eq_refl)).
Defined.

(** ** Resource lists that are absent and resource lists that are empty *)

(** X17: the limits of the result are absent exactly when the step
    declares no limits, and likewise the requests; declared limits or
    requests none of whose values is positive give a list that is present
    and empty; and a list never holds more than two entries. *)
Theorem toResources_absent_or_empty (step : Step) :
  let r := kube.toResources step in
  (v1.ResourceRequirements_Limits r = None
   ↔ Step_Resources step ≫= Resources_Limits = None)
  ∧ (v1.ResourceRequirements_Requests r = None
     ↔ Step_Resources step ≫= Resources_Requests = None)
  ∧ (∀ lim, Step_Resources step ≫= Resources_Limits = Some lim →
       ∃ l, v1.ResourceRequirements_Limits r = Some l
            ∧ (size l ≤ 2)%nat
            ∧ (l = ∅ ↔ ResourceObject_Memory lim <= 0 ∧ ResourceObject_CPU lim <= 0))
  ∧ (∀ req, Step_Resources step ≫= Resources_Requests = Some req →
       ∃ l, v1.ResourceRequirements_Requests r = Some l
            ∧ (size l ≤ 2)%nat
            ∧ (l = ∅ ↔ ResourceObject_Memory req <= 0 ∧ ResourceObject_CPU req <= 0)).
Proof.
  assert (∀ memory cpu : Z,
    let l : gmap string resource.Quantity := ∅ in
    let l := if Z.ltb 0 memory
             then <[v1.ResourceMemory := resource.NewQuantity memory resource.BinarySI]> l
             else l in
    let l := if Z.ltb 0 cpu
             then <[v1.ResourceCPU := resource.NewMilliQuantity cpu resource.DecimalSI]> l
             else l in
    (size l ≤ 2)%nat ∧ (l = ∅ ↔ memory <= 0 ∧ cpu <= 0)) as Hlist.
  { intros memory cpu. simpl. unfold v1.ResourceMemory, v1.ResourceCPU.
    destruct (Z.ltb_spec 0 memory), (Z.ltb_spec 0 cpu).
    - split; [vm_compute; lia|]. split; [|lia]. intros Hl.
      by apply insert_non_empty in Hl.
    - split; [vm_compute; lia|]. split; [|lia]. intros Hl.
      by apply insert_non_empty in Hl.
    - split; [vm_compute; lia|]. split; [|lia]. intros Hl.
      by apply insert_non_empty in Hl.
    - split; [vm_compute; lia|]. split; [lia|done]. }
  unfold kube.toResources. simpl.
  destruct (Step_Resources step) as [[lim req]|]; simpl.
  - split_and!.
    + by destruct lim.
    + by destruct req.
    + intros l ->. eexists. split; [done|]. apply Hlist.
    + intros l ->. eexists. split; [done|]. apply Hlist.
  - by split_and!.
Qed.

Lemma toResources_absent_or_empty_witness :
  v1.ResourceRequirements_Limits (kube.toResources (limitedStep (-1) 0)) = Some ∅
  ∧ v1.ResourceRequirements_Requests (kube.toResources (limitedStep (-1) 0)) = None.
Proof.
  destruct (toResources_absent_or_empty (limitedStep (-1) 0)) as (_ & Hreq & Hlim & _).
  destruct (Hlim {| ResourceObject_CPU := 0; ResourceObject_Memory := -1 |} eq_refl)
    as (l & Hl & _ & Hempty).
  split; [|by apply Hreq].
  rewrite Hl. f_equal. apply Hempty. simpl. lia.
Defined.

(** ** Paths *)

Lemma str_app_assoc (a b c : string) : (a +:+ b) +:+ c = a +:+ (b +:+ c).
Proof.
  induction a as [|x a IH]; [done|].
  change (String x ((a +:+ b) +:+ c) = String x (a +:+ (b +:+ c))). by f_equal.
Qed.

Lemma str_app_nil_r (a : string) : a +:+ "" = a.
Proof.
  induction a as [|x a IH]; [done|].
  change (String x (a +:+ "") = String x a). by f_equal.
Qed.

Lemma str_app_nonempty_r (a b : string) : b ≠ "" → a +:+ b ≠ "".
Proof. destruct a; simpl; [done|discriminate]. Qed.

Lemma hasSlash_cons (c : ascii) (s : string) :
  hasSlash (String c s) = false → Ascii.eqb c Go.slash = false ∧ hasSlash s = false.
Proof. simpl. by intros [? ?]%orb_false_iff. Qed.

Lemma split_slash_noslash (s cur : string) :
  hasSlash s = false → Go.split_slash s cur = [cur +:+ s].
Proof.
  revert cur. induction s as [|c s IH]; intros cur Hs; simpl.
  - by rewrite str_app_nil_r.
  - apply hasSlash_cons in Hs as [Hc Hs]. rewrite Hc, (IH _ Hs).
    by rewrite str_app_assoc.
Qed.

Lemma split_slash_plain (s rest cur : string) :
  hasSlash s = false → Go.split_slash (s +:+ rest) cur = Go.split_slash rest (cur +:+ s).
Proof.
  revert cur. induction s as [|c s IH]; intros cur Hs.
  - change ("" +:+ rest) with rest. by rewrite str_app_nil_r.
  - apply hasSlash_cons in Hs as [Hc Hs].
    change (Go.split_slash (String c s +:+ rest) cur)
      with (if Ascii.eqb c Go.slash then cur :: Go.split_slash (s +:+ rest) ""
            else Go.split_slash (s +:+ rest) (cur +:+ String c "")).
    rewrite Hc, (IH _ Hs). by rewrite str_app_assoc.
Qed.

Lemma split_slash_snoc (d b cur : string) :
  hasSlash b = false →
  Go.split_slash (d +:+ "/" +:+ b) cur = Go.split_slash d cur ++ [b].
Proof.
  intros Hb. revert cur. induction d as [|c d IH]; intros cur.
  - change (Go.split_slash ("" +:+ "/" +:+ b) cur) with (cur :: Go.split_slash b "").
    by rewrite (split_slash_noslash b "" Hb).
  - change (Go.split_slash (String c d +:+ "/" +:+ b) cur)
      with (if Ascii.eqb c Go.slash then cur :: Go.split_slash (d +:+ "/" +:+ b) ""
            else Go.split_slash (d +:+ "/" +:+ b) (cur +:+ String c "")).
    simpl. destruct (Ascii.eqb c Go.slash); by rewrite IH.
Qed.

Lemma split_slash_nonempty (s cur : string) : Go.split_slash s cur ≠ [].
Proof.
  revert cur. induction s as [|c s IH]; intros cur; simpl; [done|].
  destruct (Ascii.eqb c Go.slash); [done|apply IH].
Qed.

(** Joining the elements a path splits into gives the path back. *)
Lemma join_split_slash (s cur : string) :
  Go.join_slash (Go.split_slash s cur) = cur +:+ s.
Proof.
  revert cur. induction s as [|c s IH]; intros cur; simpl.
  - by rewrite str_app_nil_r.
  - destruct (Ascii.eqb_spec c Go.slash) as [->|Hc].
    + specialize (IH ""). pose proof (split_slash_nonempty s "") as Hne.
      destruct (Go.split_slash s "") as [|x r]; [done|].
      change (Go.join_slash (cur :: x :: r))
        with (cur +:+ "/" +:+ Go.join_slash (x :: r)).
      by rewrite IH.
    + rewrite IH. by rewrite str_app_assoc.
Qed.

Lemma strip_noslash (b : string) : hasSlash b = false → Go.strip_trailing_slashes b = b.
Proof.
  induction b as [|c b IH]; simpl; [done|].
  intros [Hc Hb]%orb_false_iff. rewrite (IH Hb), Hc. by rewrite andb_false_r.
Qed.

Lemma strip_app (a b : string) :
  b ≠ "" → hasSlash b = false → Go.strip_trailing_slashes (a +:+ b) = a +:+ b.
Proof.
  intros Hne Hb. induction a as [|c a IH]; [by apply strip_noslash|].
  change (Go.strip_trailing_slashes (String c a +:+ b))
    with (if bool_decide (Go.strip_trailing_slashes (a +:+ b) = "") && Ascii.eqb c Go.slash
          then "" else String c (Go.strip_trailing_slashes (a +:+ b))).
  rewrite IH. by rewrite (bool_decide_eq_false_2 _ (str_app_nonempty_r a b Hne)).
Qed.

Lemma Base_file (d b : string) :
  b ≠ "" → hasSlash b = false → Go.Base (d +:+ "/" +:+ b) = b.
Proof.
  intros Hne Hb. unfold Go.Base.
  rewrite bool_decide_eq_false_2 by (apply str_app_nonempty_r; discriminate).
  rewrite <- str_app_assoc, (strip_app _ b Hne Hb), str_app_assoc.
  rewrite (split_slash_snoc d b "" Hb), last_snoc. simpl.
  by rewrite bool_decide_eq_false_2.
Qed.

Lemma Dir_file (d b : string) : hasSlash b = false → Go.Dir (d +:+ "/" +:+ b) = Go.Clean (d +:+ "/").
Proof.
  intros Hb. unfold Go.Dir, Go.Split_dir. f_equal.
  rewrite (split_slash_snoc d b "" Hb), removelast_last.
  pose proof (split_slash_nonempty d "") as Hne.
  pose proof (join_split_slash d "") as Hjoin.
  destruct (Go.split_slash d "") as [|x r]; [done|]. by rewrite Hjoin.
Qed.

(** X18: a file mount whose declared path ends in a file name, [d/b] with
    [b] not empty and without a slash, gives a config volume whose one
    item is projected under the name [b] and a config mount at the
    cleaned directory [d/]: the file lands where it was declared. *)
Theorem config_file_placement (mount : FileMount) (file : File) (d b : string) :
  FileMount_Path mount = d +:+ "/" +:+ b →
  b ≠ "" → hasSlash b = false →
  (∃ cm, v1.Volume_ConfigMap (kube.configVolume mount file) = Some cm
         ∧ v1.KeyToPath_Path <$> v1.ConfigMapVolumeSource_Items cm = [b])
  ∧ v1.VolumeMount_MountPath (kube.configMount mount file) = Go.Clean (d +:+ "/")
  ∧ v1.VolumeMount_Name (kube.configMount mount file)
    = v1.Volume_Name (kube.configVolume mount file).
Proof.
  intros Hpath Hne Hb. split_and!.
  - eexists. split; [done|]. simpl. by rewrite Hpath, (Base_file d b Hne Hb).
  - simpl. by rewrite Hpath, (Dir_file d b Hb).
  - done.
Qed.

Lemma config_file_placement_witness :
  v1.VolumeMount_MountPath (kube.configMount (netrcMount 384) netrcFile) = "/root".
Proof.
  destruct (config_file_placement (netrcMount 384) netrcFile "/root" ".netrc"
              eq_refl ltac:(discriminate) eq_refl) as (_ & Hdir & _).
  rewrite Hdir. vm_compute. reflexivity.
Defined.

Lemma clean_step_plain (rooted : bool) (out : list string) (e : string) :
  plainSegment e → Go.clean_step rooted out e = e :: out.
Proof.
  intros (He & Hdot & Hdots & _). unfold Go.clean_step.
  by rewrite !bool_decide_eq_false_2.
Qed.

Lemma emptyDir_join_plain (ns uid : string) :
  plainSegment ns → plainSegment uid →
  Go.filepath_Join ["/tmp"; "drone"; ns; uid] = "/tmp/drone/" +:+ ns +:+ "/" +:+ uid.
Proof.
  intros Hns Huid.
  change (Go.filepath_Join ["/tmp"; "drone"; ns; uid])
    with (Go.Clean ("/tmp/drone/" +:+ ns +:+ "/" +:+ uid)).
  unfold Go.Clean.
  change (bool_decide ("/tmp/drone/" +:+ ns +:+ "/" +:+ uid = "")) with false.
  change (Go.is_rooted ("/tmp/drone/" +:+ ns +:+ "/" +:+ uid)) with true.
  change (Go.split_slash ("/tmp/drone/" +:+ ns +:+ "/" +:+ uid) "")
    with ("" :: "tmp" :: "drone" :: Go.split_slash (ns +:+ "/" +:+ uid) "").
  rewrite (split_slash_snoc ns uid "" (proj2 (proj2 (proj2 Huid)))).
  rewrite (split_slash_noslash ns "" (proj2 (proj2 (proj2 Hns)))).
  change (foldl (Go.clean_step true) [] ("" :: "tmp" :: "drone" :: ["" +:+ ns] ++ [uid]))
    with (Go.clean_step true (Go.clean_step true ["drone"; "tmp"] ns) uid).
  by rewrite (clean_step_plain true _ ns Hns), (clean_step_plain true _ uid Huid).
Qed.

Lemma Clean_rooted (p : string) : Go.is_rooted p = true → Go.is_rooted (Go.Clean p) = true.
Proof.
  intros Hp. unfold Go.Clean. destruct p as [|c p]; [done|].
  rewrite bool_decide_eq_false_2 by done. by rewrite Hp.
Qed.

(** X19: the host path of an EmptyDir volume is always absolute; when the
    namespace of the specification and the UID of the volume are plain
    path segments it is /tmp/drone/{namespace}/{UID}, and it does not
    depend on a host path the volume may also declare. *)
Theorem emptyDir_host_path (spec : Spec) (vol : Volume) :
  is_Some (Volume_EmptyDir vol) →
  ∃ v path,
    kube.toHostPathVolume spec vol = Some v
    ∧ hostPathOf v = Some path
    ∧ Go.is_rooted path = true
    ∧ (plainSegment (Metadata_Namespace (Spec_Metadata spec)) →
       plainSegment (Metadata_UID (Volume_Metadata vol)) →
       path = "/tmp/drone/" +:+ Metadata_Namespace (Spec_Metadata spec) +:+ "/"
              +:+ Metadata_UID (Volume_Metadata vol))
    ∧ (∀ vol', Volume_Metadata vol' = Volume_Metadata vol →
               is_Some (Volume_EmptyDir vol') →
               kube.toHostPathVolume spec vol' = Some v).
Proof.
  intros [ed Hed]. unfold kube.toHostPathVolume. rewrite Hed. simpl.
  eexists _, _. split_and!; [done|done| | |].
  - change (Go.filepath_Join _)
      with (Go.Clean ("/tmp/drone/" +:+ Metadata_Namespace (Spec_Metadata spec) +:+ "/"
                      +:+ Metadata_UID (Volume_Metadata vol))).
    by apply Clean_rooted.
  - apply emptyDir_join_plain.
  - intros vol' Hmeta [ed' Hed']. by rewrite Hed', Hmeta.
Qed.

Lemma emptyDir_host_path_witness :
  hostPathOf <$> kube.toHostPathVolume (sampleSpec [] [] [bothVolume]) bothVolume
  = Some (Some "/tmp/drone/ns1/vol-both").
Proof.
  destruct (emptyDir_host_path (sampleSpec [] [] [bothVolume]) bothVolume
              (mk_is_Some _ _ eq_refl)) as (v & path & Hv & Hpath & _ & Hplain & _).
  rewrite Hv. simpl. rewrite Hpath. do 2 f_equal.
  apply Hplain; repeat split; discriminate || reflexivity.
Defined.

(** X20: the helper that builds a host-path volume has nothing to build
    from exactly on a volume with neither an EmptyDir nor a HostPath, and
    the helper that builds secret volumes exactly on a volume without a
    Secret. A volume with a HostPath and no EmptyDir keeps the declared
    path character for character, unclean as it may be. *)
Theorem volume_helpers_defined (spec : Spec) (vol : Volume) :
  (kube.toHostPathVolume spec vol = None
   ↔ Volume_EmptyDir vol = None ∧ Volume_HostPath vol = None)
  ∧ (kube.toSecretVolumes spec vol = None ↔ Volume_Secret vol = None)
  ∧ (∀ hp, Volume_EmptyDir vol = None → Volume_HostPath vol = Some hp →
       hostPathOf <$> kube.toHostPathVolume spec vol = Some (Some (VolumeHostPath_Path hp))).
Proof.
  split_and!.
  - unfold kube.toHostPathVolume.
    destruct (Volume_EmptyDir vol), (Volume_HostPath vol); simpl; naive_solver.
  - unfold kube.toSecretVolumes. destruct (Volume_Secret vol); simpl; naive_solver.
  - intros hp Hed Hhp. unfold kube.toHostPathVolume. by rewrite Hed, Hhp.
Qed.

Lemma volume_helpers_defined_witness :
  hostPathOf <$> kube.toHostPathVolume (sampleSpec [] [] []) cacheVolume
  = Some (Some "/var/lib/cache")
  ∧ kube.toHostPathVolume (sampleSpec [] [] []) emptyVolume = None.
Proof.
  destruct (volume_helpers_defined (sampleSpec [] [] []) cacheVolume) as (_ & _ & Hhp).
  destruct (volume_helpers_defined (sampleSpec [] [] []) emptyVolume) as (Hnone & _ & _).
  split.
  - apply (Hhp {| VolumeHostPath_Path := "/var/lib/cache" |}); reflexivity.
  - apply Hnone. split; reflexivity.
Defined.

(** ** The service and the pod it selects *)

(** X21: the selector of the service of a step matches the labels of the
    step's pod exactly when the labels of the step bind
    io.drone.step.name to the step's name: the pod's labels are the
    step's own, and the builders do not add the label. *)
Theorem service_selects_pod (R : MapRange) (spec : Spec) (step : Step) :
  v1.ServiceSpec_Selector (v1.Service_Spec (kube.toService spec step))
    ⊆ v1.ObjectMeta_Labels (v1.Pod_ObjectMeta (kube.toPod R spec step))
  ↔ Metadata_Labels (Step_Metadata step) !! "io.drone.step.name"
    = Some (Metadata_Name (Step_Metadata step)).
Proof. simpl. apply map_singleton_subseteq_l. Qed.
